(** * GoGuestBook: the entry lifecycle of [main.go], embedded and verified

    The development follows [main.go] top to bottom.  The [entries] table
    is a finite map from the primary key [id] to the remaining columns;
    every HTTP handler is a computation in a small monad that threads the
    table, the [http.ResponseWriter] and the trace of outside effects
    (mails handed to the SMTP server, lines given to [log.Printf]) and that
    can leave early, as the Go handlers do with [return].

    What lies outside the repository is taken as data: the clock, the
    random source and the SMTP server are fields of [Env]; the library
    functions whose code is not in [main.go] ([sha256.Sum256],
    [net.SplitHostPort], the JSON decoder) are fields of [Lib]. *)

From Stdlib Require Import ZArith String Ascii List Lia Permutation.
From stdpp Require Import base option list sorting fin_maps gmap strings.

Set Warnings "-register-all".

Local Open Scope string_scope.
Local Open Scope Z_scope.

(** ** Strings and bytes *)

(** A Go [string] is a sequence of bytes, as is a Rocq [string];
    [len(s)] is [String.length s]. *)

Definition LF : string := String (ascii_of_nat 10) EmptyString.
Definition CRLF : string := String (ascii_of_nat 13) LF.
Definition DQUOTE : string := String (ascii_of_nat 34) EmptyString.

Definition hexdigit (n : nat) : ascii :=
  match n with
  | 0 => "0" | 1 => "1" | 2 => "2" | 3 => "3" | 4 => "4" | 5 => "5"
  | 6 => "6" | 7 => "7" | 8 => "8" | 9 => "9" | 10 => "a" | 11 => "b"
  | 12 => "c" | 13 => "d" | 14 => "e" | _ => "f"
  end%nat%char.

(** [hex.EncodeToString]: two lower-case digits per byte. *)
Fixpoint hex_EncodeToString (src : string) : string :=
  match src with
  | EmptyString => EmptyString
  | String b rest =>
      let v := nat_of_ascii b in
      String (hexdigit (v / 16)) (String (hexdigit (v mod 16)) (hex_EncodeToString rest))
  end.

(** ** Errors *)

(** A Go [error]; [errors.Is(err, sql.ErrNoRows)] is the test for the first
    constructor, [err.Error()] is [Error]. *)
Inductive error : Type :=
  | sql_ErrNoRows
  | errors_New (msg : string).

Definition Error (err : error) : string :=
  match err with
  | sql_ErrNoRows => "sql: no rows in result set"
  | errors_New msg => msg
  end.

Definition is_ErrNoRows (err : error) : bool :=
  match err with sql_ErrNoRows => true | errors_New _ => false end.

(** ** Data model *)

(** [type Entry struct] (main.go:25).  [Approved] is an [int8]; the table
    only ever holds -1, 0 and 1 in it (see [approved_domain] below), so it
    is kept as a [Z].  [CreatedAt] is a point in time, in nanoseconds. *)
Record Entry : Type := mkEntry {
  ID : string;
  Name : string;
  Email : string;
  Message : string;
  Approved : Z;
  Comment : string;
  IP : string;
  CreatedAt : Z;
  Code : string
}.

(** The zero value of [Entry], what [var entry Entry] declares. *)
Definition Entry_zero : Entry :=
  mkEntry "" "" "" "" 0 "" "" 0 "".

(** [type Configuration struct] (main.go:38). *)
Record Configuration : Type := mkConfiguration {
  DBFile : string;
  Listen : string;
  SMTPHost : string;
  SMTPPort : string;
  SMTPUser : string;
  SMTPPass : string;
  AdminEmail : string;
  URL : string;
  EntryWaitDuration : Z;
  AntiSpamCode : string
}.

Definition mailEntryApprovedSubject : string := "Gästebuch-Eintrag freigeschaltet".
Definition mailEntryApprovedBody (url : string) : string :=
  "Dein Gästebuch-Eintrag wurde freigeschaltet: " +:+ url.
Definition mailEntryCommentSubject : string := "Gästebuch-Eintrag kommentiert".
Definition mailEntryCommentBody (url : string) : string :=
  "Dein Gästebuch-Eintrag wurde kommentiert: " +:+ url.
Definition mailAdminEntryAddedSubject : string := "Neuer Gästebuch-Eintrag".
Definition mailAdminEntryAddedBody (url : string) : string :=
  "Neuer Gästebucheintrag, bitte prüfen und freischalten: " +:+ url.
Definition nameMinLen : nat := 3.
Definition nameMaxLen : nat := 100.
Definition emailMinLen : nat := 6.
Definition emailMaxLen : nat := 100.
Definition messageMinLen : nat := 10.
Definition messageMaxLen : nat := 2000.

(** ** The [entries] table *)

(** One row of [CREATE TABLE entries] (main.go:85) without its primary key. *)
Record Row : Type := mkRow {
  col_name : string;
  col_email : string;
  col_message : string;
  col_ip : string;
  col_approved : Z;
  col_comment : string;
  col_created_at : Z
}.

(** [id TEXT PRIMARY KEY]: at most one row per id. *)
Abbreviation Table := (gmap string Row).

Definition set_approved (v : Z) (row : Row) : Row :=
  mkRow (col_name row) (col_email row) (col_message row) (col_ip row)
        v (col_comment row) (col_created_at row).

Definition set_comment (c : string) (row : Row) : Row :=
  mkRow (col_name row) (col_email row) (col_message row) (col_ip row)
        (col_approved row) c (col_created_at row).

(** ** The world outside *)

(** An event the process causes outside itself. *)
Inductive Event : Type :=
  | smtp_SendMail (addr : string) (from : string) (to : list string) (msg : string)
  | log_Printf (line : string).

(** What the surroundings answer during one request. *)
Record Env : Type := mkEnv {
  time_Now : Z;                       (* [time.Now()], nanoseconds *)
  CURRENT_TIMESTAMP : Z;              (* the clock of SQLite at an INSERT *)
  rand_Read : nat -> string + error;  (* [rand.Read] on a buffer of that length *)
  smtp_result : string -> string -> list string -> string -> option error
                                      (* what [smtp.SendMail] returns *)
}.

(** Library code that [main.go] calls and does not contain. *)
Record Lib : Type := mkLib {
  sha256_Sum256 : string -> string;
  net_SplitHostPort : string -> (string * string) + error;
  json_Decode_Entry : string -> Entry + error;
  json_Decode_comment : string -> string + error
}.

(** ** [net/http] *)

(** [r.Header] is a [map[string][]string]; [Get] returns the first value
    stored under the key and the empty string when there is none. *)
Record Request : Type := mkRequest {
  Header : gmap string (list string);
  RemoteAddr : string;
  mux_Vars : gmap string string;
  Body : string
}.

Definition Header_Get (h : gmap string (list string)) (key : string) : string :=
  match h !! key with
  | Some (v :: _) => v
  | _ => ""
  end.

(** JSON values as [encoding/json] writes them. *)
Inductive json : Type :=
  | JNull
  | JBool (b : bool)
  | JInt (n : Z)
  | JString (s : string)
  | JTime (t : Z)
  | JArray (elems : list json)
  | JObject (members : list (string * json)).

(** One [Write] on the response body. *)
Inductive Chunk : Type :=
  | Text (s : string)
  | Json (v : json).

(** [http.ResponseWriter]: the header map, the status line once it is
    written (with the headers as sent), and the body. *)
Record ResponseWriter : Type := mkResponseWriter {
  w_Header : gmap string string;
  w_status : option (Z * gmap string string);
  w_body : list Chunk
}.

Definition StatusOK : Z := 200.
Definition StatusCreated : Z := 201.
Definition StatusNoContent : Z := 204.
Definition StatusBadRequest : Z := 400.
Definition StatusNotFound : Z := 404.
Definition StatusTooManyRequests : Z := 429.
Definition StatusInternalServerError : Z := 500.

(** What the client receives once the handler has returned: a handler
    that never wrote a status line answers 200. *)
Record Response : Type := mkResponse {
  status : Z;
  header : gmap string string;
  body : list Chunk
}.

Definition finish (w : ResponseWriter) : Response :=
  match w_status w with
  | Some (code, sent) => mkResponse code sent (w_body w)
  | None => mkResponse StatusOK (w_Header w) (w_body w)
  end.

(** ** The handler monad *)

(** The globals a handler works on: the table behind [db], the response
    writer [w] it was given, and the trace of events so far. *)
Record HState : Type := mkHState {
  h_db : Table;
  h_w : ResponseWriter;
  h_out : list Event
}.

(** A handler step yields a value, or [None] once the handler has
    executed [return]; the steps after a [return] do not run. *)
Definition Handler (A : Type) : Type := HState -> option A * HState.

#[export] Instance Handler_ret : MRet Handler :=
  fun A (a : A) (s : HState) => (Some a, s).

#[export] Instance Handler_bind : MBind Handler :=
  fun A B (f : A -> Handler B) (m : Handler A) (s : HState) =>
    match m s with
    | (Some a, s') => f a s'
    | (None, s') => (None, s')
    end.

Definition return_ {A : Type} : Handler A :=
  fun s => (None, s).

Definition skip : Handler unit := mret tt.

Definition get_db : Handler Table :=
  fun s => (Some (h_db s), s).

Definition put_db (t : Table) : Handler unit :=
  fun s => (Some tt, mkHState t (h_w s) (h_out s)).

Definition emit (ev : Event) : Handler unit :=
  fun s => (Some tt, mkHState (h_db s) (h_w s) (h_out s ++ [ev])).

Definition modify_w (f : ResponseWriter -> ResponseWriter) : Handler unit :=
  fun s => (Some tt, mkHState (h_db s) (f (h_w s)) (h_out s)).

(** [w.Header().Set(key, value)]: changes the map; headers already sent
    stay as they were. *)
Definition w_Header_Set (key value : string) : Handler unit :=
  modify_w (fun w => mkResponseWriter (<[key := value]> (w_Header w)) (w_status w) (w_body w)).

(** [w.WriteHeader(code)]: sends the status line and the headers once; a
    second call is ignored. *)
Definition WriteHeader (code : Z) (w : ResponseWriter) : ResponseWriter :=
  match w_status w with
  | Some _ => w
  | None => mkResponseWriter (w_Header w) (Some (code, w_Header w)) (w_body w)
  end.

Definition w_WriteHeader (code : Z) : Handler unit :=
  modify_w (WriteHeader code).

(** [w.Write]: sends 200 first when no status line went out yet. *)
Definition Write (c : Chunk) (w : ResponseWriter) : ResponseWriter :=
  let w' := WriteHeader StatusOK w in
  mkResponseWriter (w_Header w') (w_status w') (w_body w' ++ [c]).

Definition w_Write (c : Chunk) : Handler unit :=
  modify_w (Write c).

(** [http.Error(w, msg, code)]. *)
Definition http_Error (msg : string) (code : Z) : Handler unit :=
  w_Header_Set "Content-Type" "text/plain; charset=utf-8";;
  w_Header_Set "X-Content-Type-Options" "nosniff";;
  w_WriteHeader code;;
  w_Write (Text (msg +:+ LF)).

(** [json.NewEncoder(w).Encode(v)]. *)
Definition json_Encode (v : json) : Handler unit :=
  w_Write (Json v).

Definition log (line : string) : Handler unit :=
  emit (log_Printf line).

(** Serving one request on a table: the response, the table afterwards
    and the events caused. *)
Definition serve (h : Handler unit) (t : Table) : Response * Table * list Event :=
  let s := snd (h (mkHState t (mkResponseWriter ∅ None []) [])) in
  (finish (h_w s), h_db s, h_out s).

Definition response_of (res : Response * Table * list Event) : Response := res.1.1.
Definition table_of (res : Response * Table * list Event) : Table := res.1.2.
Definition events_of (res : Response * Table * list Event) : list Event := res.2.

(** ** [regexp] *)

(** The part of the syntax of Go regular expressions that [emailRegex]
    uses.  A character class is its membership test on bytes: every class
    of [emailRegex] holds ASCII characters only, so no byte of a
    multi-byte rune is in one. *)
Inductive regexp : Type :=
  | Void
  | Eps
  | Class (p : ascii -> bool)
  | Cat (r1 r2 : regexp)
  | Alt (r1 r2 : regexp)
  | Star (r : regexp).

(** [r+] *)
Definition Plus (r : regexp) : regexp := Cat r (Star r).

(** [r{n,}] *)
Fixpoint AtLeast (n : nat) (r : regexp) : regexp :=
  match n with
  | O => Star r
  | S n' => Cat r (AtLeast n' r)
  end.

(** The strings a regular expression denotes. *)
Inductive Matches : regexp -> string -> Prop :=
  | Matches_Eps : Matches Eps ""
  | Matches_Class p c : p c = true -> Matches (Class p) (String c "")
  | Matches_Cat r1 r2 s1 s2 :
      Matches r1 s1 -> Matches r2 s2 -> Matches (Cat r1 r2) (s1 +:+ s2)
  | Matches_Alt_l r1 r2 s : Matches r1 s -> Matches (Alt r1 r2) s
  | Matches_Alt_r r1 r2 s : Matches r2 s -> Matches (Alt r1 r2) s
  | Matches_Star_nil r : Matches (Star r) ""
  | Matches_Star_cons r s1 s2 :
      Matches r s1 -> Matches (Star r) s2 -> Matches (Star r) (s1 +:+ s2).

(** Matching by derivatives. *)
Fixpoint nullable (r : regexp) : bool :=
  match r with
  | Void => false
  | Eps => true
  | Class _ => false
  | Cat r1 r2 => nullable r1 && nullable r2
  | Alt r1 r2 => nullable r1 || nullable r2
  | Star _ => true
  end.

Fixpoint deriv (c : ascii) (r : regexp) : regexp :=
  match r with
  | Void => Void
  | Eps => Void
  | Class p => if p c then Eps else Void
  | Cat r1 r2 =>
      if nullable r1 then Alt (Cat (deriv c r1) r2) (deriv c r2)
      else Cat (deriv c r1) r2
  | Alt r1 r2 => Alt (deriv c r1) (deriv c r2)
  | Star r1 => Cat (deriv c r1) (Star r1)
  end.

(** [re.MatchString(s)] for an expression written between [^] and [$]:
    without the multi-line flag these stand for the two ends of the text,
    so the whole of [s] has to match. *)
Fixpoint MatchString (re : regexp) (s : string) : bool :=
  match s with
  | EmptyString => nullable re
  | String c rest => MatchString (deriv c re) rest
  end.

Definition in_range (lo hi c : ascii) : bool :=
  (nat_of_ascii lo <=? nat_of_ascii c)%nat && (nat_of_ascii c <=? nat_of_ascii hi)%nat.

Definition one_of (set : string) (c : ascii) : bool :=
  existsb (Ascii.eqb c) (list_ascii_of_string set).

(** [[a-zA-Z]] *)
Definition class_letter (c : ascii) : bool :=
  in_range "a" "z" c || in_range "A" "Z" c.

(** [[a-zA-Z0-9._%+-]] *)
Definition class_local (c : ascii) : bool :=
  class_letter c || in_range "0" "9" c || one_of "._%+-" c.

(** [[a-zA-Z0-9.-]] *)
Definition class_domain (c : ascii) : bool :=
  class_letter c || in_range "0" "9" c || one_of ".-" c.

(** [^[a-zA-Z0-9._%+-]+@[a-zA-Z0-9.-]+\.[a-zA-Z]{2,}$] (main.go:284). *)
Definition emailRegex : regexp :=
  Cat (Plus (Class class_local))
 (Cat (Class (Ascii.eqb "@"))
 (Cat (Plus (Class class_domain))
 (Cat (Class (Ascii.eqb "."))
      (AtLeast 2 (Class class_letter))))).

(** [isValidEmail] (main.go:282). *)
Definition isValidEmail (email : string) : bool :=
  MatchString emailRegex email.

(** [validateEntry] (main.go:262); [None] is Go's [nil]. *)
Definition validateEntry (entry : Entry) : option error :=
  if (String.length (Name entry) <? nameMinLen)%nat
     || (nameMaxLen <? String.length (Name entry))%nat then
    Some (errors_New "name must be between 3 and 100 characters")
  else if (String.length (Email entry) <? emailMinLen)%nat
          || (emailMaxLen <? String.length (Email entry))%nat then
    Some (errors_New "email must be between 6 and 100 characters")
  else if (String.length (Message entry) <? messageMinLen)%nat
          || (messageMaxLen <? String.length (Message entry))%nat then
    Some (errors_New "message must be between 10 and 2000 characters")
  else if negb (isValidEmail (Email entry)) then
    Some (errors_New "invalid email format")
  else None.

Example isValidEmail_alice : isValidEmail "alice@example.com" = true.
Proof. reflexivity. Qed.

Example isValidEmail_short_tld : isValidEmail "alice@example.c" = false.
Proof. reflexivity. Qed.

Example isValidEmail_trailing_newline :
  isValidEmail ("alice@example.com" +:+ LF) = false.
Proof. reflexivity. Qed.

Example isValidEmail_dots : isValidEmail "a.b+c@x-y.z.org" = true.
Proof. reflexivity. Qed.

Example isValidEmail_no_at : isValidEmail "alice.example.com" = false.
Proof. reflexivity. Qed.

(** ** [time] *)

(** A [time.Duration] is an [int64] count of nanoseconds; [t.Sub(u)]
    returns the nearest of the two ends when the difference does not fit. *)
Definition minDuration : Z := - 2 ^ 63.
Definition maxDuration : Z := 2 ^ 63 - 1.

Definition time_Sub (t u : Z) : Z :=
  if t - u <? minDuration then minDuration
  else if maxDuration <? t - u then maxDuration
  else t - u.

(** ** SQL *)

(** The storage engine is taken to work: a statement fails only for a
    reason the table gives, [sql.ErrNoRows] on a [Get] without a row and a
    constraint violation on an INSERT with a primary key already there. *)

(** [ORDER BY created_at DESC]: the later row first. *)
Definition created_at_desc : relation (string * Row) :=
  fun a b => col_created_at b.2 <= col_created_at a.2.

#[export] Instance created_at_desc_dec : RelDecision created_at_desc.
Proof. intros a b. unfold created_at_desc. apply _. Defined.

Definition ORDER_BY_created_at_DESC (rows : list (string * Row)) : list (string * Row) :=
  merge_sort created_at_desc rows.

(** The columns a query selects, scanned into an [Entry]; the fields not
    selected keep their zero value. *)
Definition scan_listing (kv : string * Row) : Entry :=
  mkEntry "" (col_name kv.2) "" (col_message kv.2) (col_approved kv.2)
          (col_comment kv.2) "" (col_created_at kv.2) "".

Definition scan_created_at (kv : string * Row) : Entry :=
  mkEntry "" "" "" "" 0 "" "" (col_created_at kv.2) "".

Definition scan_all (kv : string * Row) : Entry :=
  mkEntry kv.1 (col_name kv.2) (col_email kv.2) (col_message kv.2)
          (col_approved kv.2) (col_comment kv.2) (col_ip kv.2)
          (col_created_at kv.2) "".

Definition scan_email_approved (kv : string * Row) : Entry :=
  mkEntry "" "" (col_email kv.2) "" (col_approved kv.2) "" "" 0 "".

Definition scan_email_comment (kv : string * Row) : Entry :=
  mkEntry "" "" (col_email kv.2) "" 0 (col_comment kv.2) "" 0 "".

(** [SELECT name, message, approved, comment, created_at FROM entries
     WHERE approved = 1 ORDER by created_at DESC] *)
Definition SELECT_approved (t : Table) : list Entry :=
  scan_listing <$>
    ORDER_BY_created_at_DESC (filter (fun kv => col_approved kv.2 = 1) (map_to_list t)).

(** [SELECT created_at FROM entries WHERE ip = ? ORDER BY created_at DESC
     LIMIT 1] *)
Definition SELECT_last_created_at (ip : string) (t : Table) : list Entry :=
  scan_created_at <$>
    take 1 (ORDER_BY_created_at_DESC (filter (fun kv => col_ip kv.2 = ip) (map_to_list t))).

(** [SELECT ... FROM entries WHERE id = ?] *)
Definition SELECT_by_id (scan : string * Row -> Entry) (id : string) (t : Table) : list Entry :=
  match t !! id with
  | Some row => [scan (id, row)]
  | None => []
  end.

(** [db.Select(&entries, query)]. *)
Definition db_Select (query : Table -> list Entry) : Handler (list Entry) :=
  t ← get_db; mret (query t).

(** [db.Get(&entry, query)]: the first row, [sql.ErrNoRows] without one. *)
Definition db_Get (query : Table -> list Entry) : Handler (Entry + error) :=
  t ← get_db;
  mret (match query t with
        | e :: _ => inl e
        | [] => inr sql_ErrNoRows
        end).

(** [db.Exec("UPDATE entries SET ... WHERE id = ?")] followed by
    [result.RowsAffected()]: a row that is matched counts, whether or not
    the value written differs from the one it had. *)
Definition db_Exec_UPDATE (set : Row -> Row) (id : string) : Handler Z :=
  t ← get_db;
  match t !! id with
  | Some row => put_db (<[id := set row]> t);; mret 1
  | None => mret 0
  end.

(** [db.NamedExec("INSERT INTO entries (id, name, email, message, ip,
     comment) VALUES (:id, :name, :email, :message, :ip, '')", entry)]:
    [approved] and [created_at] take their defaults. *)
Definition db_NamedExec_INSERT (now : Z) (entry : Entry) : Handler (option error) :=
  t ← get_db;
  match t !! ID entry with
  | Some _ => mret (Some (errors_New "UNIQUE constraint failed: entries.id"))
  | None =>
      put_db (<[ID entry :=
                 mkRow (Name entry) (Email entry) (Message entry) (IP entry) 0 "" now]> t);;
      mret None
  end.

(** ** The program *)

(** [encoding/json] on an [Entry]: the fields in the order of the struct,
    under the names of their tags; [IP] carries the tag [-] and is left
    out. *)
Definition Entry_json (e : Entry) : json :=
  JObject [("id", JString (ID e)); ("name", JString (Name e));
           ("email", JString (Email e)); ("message", JString (Message e));
           ("approved", JInt (Approved e)); ("comment", JString (Comment e));
           ("created_at", JTime (CreatedAt e)); ("code", JString (Code e))].

(** A nil slice is encoded as [null]. *)
Definition Entries_json (entries : list Entry) : json :=
  match entries with
  | [] => JNull
  | _ => JArray (Entry_json <$> entries)
  end.

Definition error_json (tag : string) : json := JObject [("error", JString tag)].
Definition success_json : json := JObject [("success", JBool true)].

Section Program.

Context (lib : Lib) (config : Configuration) (env : Env).

(** [time.Since(t)] *)
Definition time_Since (t : Z) : Z := time_Sub (time_Now env) t.

(** [sendEmail] (main.go:152). *)
Definition sendEmail (to subject body : string) : Handler (option error) :=
  let smtpHost := SMTPHost config in
  let smtpPort := SMTPPort config in
  let smtpUser := SMTPUser config in
  let from := AdminEmail config in
  let message :=
    "To: " +:+ to +:+ CRLF +:+
    "From: " +:+ from +:+ CRLF +:+
    "Subject: =?utf-8?q?" +:+ subject +:+ "?=" +:+ CRLF +:+
    "Content-Type: text/plain; charset=" +:+ DQUOTE +:+ "UTF-8" +:+ DQUOTE +:+ CRLF +:+
    CRLF +:+
    body in
  emit (smtp_SendMail (smtpHost +:+ ":" +:+ smtpPort) smtpUser [to] message);;
  mret (smtp_result env (smtpHost +:+ ":" +:+ smtpPort) smtpUser [to] message).

(** [getApprovedEntries] (main.go:173). *)
Definition getApprovedEntries (r : Request) : Handler unit :=
  entries ← db_Select SELECT_approved;
  w_Header_Set "Content-Type" "application/json";;
  json_Encode (Entries_json entries).

(** [generateID] (main.go:290). *)
Definition generateID : string + error :=
  match rand_Read env 32 with
  | inr err => inr err
  | inl b => inl (hex_EncodeToString (sha256_Sum256 lib b))
  end.

(** [createEntry] (main.go:186). *)
Definition createEntry (r : Request) : Handler unit :=
  match json_Decode_Entry lib (Body r) with
  | inr err => http_Error (Error err) StatusBadRequest;; return_
  | inl entry =>
      (if decide (Code entry ≠ AntiSpamCode config) then
         http_Error "" StatusBadRequest;;
         w_Header_Set "Content-Type" "application/json";;
         json_Encode (error_json "code");;
         return_
       else skip);;
      (match validateEntry entry with
       | Some _ =>
           http_Error "" StatusBadRequest;;
           w_Header_Set "Content-Type" "application/json";;
           json_Encode (error_json "validation");;
           return_
       | None => skip
       end);;
      ip ← (let ip := Header_Get (Header r) "X-Forwarded-For" in
            if decide (ip = "") then
              match net_SplitHostPort lib (RemoteAddr r) with
              | inr err => http_Error (Error err) StatusInternalServerError;; return_
              | inl (host, _) => mret host
              end
            else mret ip);
      prev ← db_Get (SELECT_last_created_at ip);
      (match prev with
       | inl prevEntry =>
           if decide (time_Since (CreatedAt prevEntry) < EntryWaitDuration config) then
             http_Error "" StatusTooManyRequests;;
             w_Header_Set "Content-Type" "application/json";;
             json_Encode (error_json "postlimit");;
             return_
           else skip
       | inr err =>
           if negb (is_ErrNoRows err) then
             http_Error (Error err) StatusInternalServerError;; return_
           else skip
       end);;
      match generateID with
      | inr err => http_Error (Error err) StatusInternalServerError;; return_
      | inl id =>
          let entry := mkEntry id (Name entry) (Email entry) (Message entry)
                               (Approved entry) (Comment entry) ip
                               (CreatedAt entry) (Code entry) in
          res ← db_NamedExec_INSERT (CURRENT_TIMESTAMP env) entry;
          match res with
          | Some err => http_Error (Error err) StatusInternalServerError;; return_
          | None =>
              let url := URL config in
              let url := url +:+ "?GgbEntryID=" +:+ id in
              log ("New entry: " +:+ url);;
              err ← sendEmail (AdminEmail config) mailAdminEntryAddedSubject
                              (mailAdminEntryAddedBody url);
              (match err with
               | Some e => log ("Failed to send email to admin: " +:+ Error e)
               | None => skip
               end);;
              w_WriteHeader StatusCreated;;
              w_Header_Set "Content-Type" "application/json";;
              json_Encode success_json
          end
      end
  end.

(** [getEntry] (main.go:301). *)
Definition getEntry (r : Request) : Handler unit :=
  let params := mux_Vars r in
  let id := default "" (params !! "id") in
  res ← db_Get (SELECT_by_id scan_all id);
  match res with
  | inr err =>
      if is_ErrNoRows err then
        http_Error "Entry not found" StatusNotFound;; return_
      else
        http_Error (Error err) StatusInternalServerError;; return_
  | inl entry =>
      w_Header_Set "Content-Type" "application/json";;
      json_Encode (Entry_json entry)
  end.

(** [approveEntry] (main.go:319). *)
Definition approveEntry (r : Request) : Handler unit :=
  let params := mux_Vars r in
  let id := default "" (params !! "id") in
  res ← db_Get (SELECT_by_id scan_email_approved id);
  match res with
  | inr err => http_Error (Error err) StatusInternalServerError;; return_
  | inl oldEntry =>
      rowsAffected ← db_Exec_UPDATE (set_approved 1) id;
      (if decide (rowsAffected = 0) then
         http_Error "Entry not found" StatusNotFound;; return_
       else skip);;
      (if decide (Email oldEntry ≠ "" ∧ Approved oldEntry = 0) then
         err ← sendEmail (Email oldEntry) mailEntryApprovedSubject
                         (mailEntryApprovedBody (URL config));
         match err with
         | Some e => log ("Failed to send email to author: " +:+ Error e)
         | None => skip
         end
       else skip);;
      w_WriteHeader StatusNoContent
  end.

(** [rejectEntry] (main.go:359). *)
Definition rejectEntry (r : Request) : Handler unit :=
  let params := mux_Vars r in
  let id := default "" (params !! "id") in
  rowsAffected ← db_Exec_UPDATE (set_approved (-1)) id;
  (if decide (rowsAffected = 0) then
     http_Error "Entry not found" StatusNotFound;; return_
   else skip);;
  w_WriteHeader StatusNoContent.

(** [addComment] (main.go:380). *)
Definition addComment (r : Request) : Handler unit :=
  let params := mux_Vars r in
  let id := default "" (params !! "id") in
  res ← db_Get (SELECT_by_id scan_email_comment id);
  match res with
  | inr err => http_Error (Error err) StatusInternalServerError;; return_
  | inl oldEntry =>
      match json_Decode_comment lib (Body r) with
      | inr err => http_Error (Error err) StatusBadRequest;; return_
      | inl comment =>
          rowsAffected ← db_Exec_UPDATE (set_comment comment) id;
          (if decide (rowsAffected = 0) then
             http_Error "Entry not found" StatusNotFound;; return_
           else skip);;
          (if decide (Email oldEntry ≠ "" ∧ Comment oldEntry = "") then
             err ← sendEmail (Email oldEntry) mailEntryCommentSubject
                             (mailEntryCommentBody (URL config));
             match err with
             | Some e => log ("Failed to send email to author: " +:+ Error e)
             | None => skip
             end
           else skip);;
          w_WriteHeader StatusNoContent
      end
  end.

End Program.

(** The routes of [main] (main.go:104). *)
Inductive Route : Type :=
  | GET_entries
  | POST_entries
  | GET_entry
  | POST_approve
  | POST_reject
  | PUT_comment.

Definition router (lib : Lib) (config : Configuration) (env : Env)
    (route : Route) (r : Request) : Handler unit :=
  match route with
  | GET_entries => getApprovedEntries r
  | POST_entries => createEntry lib config env r
  | GET_entry => getEntry r
  | POST_approve => approveEntry config env r
  | POST_reject => rejectEntry r
  | PUT_comment => addComment lib config env r
  end.

(** The tables the program can build: it starts on the empty table of
    [CREATE TABLE] and serves one request after the other, each in
    surroundings of its own. *)
Inductive reachable (lib : Lib) (config : Configuration) : Table -> Prop :=
  | reachable_empty : reachable lib config ∅
  | reachable_serve t env route r :
      reachable lib config t ->
      reachable lib config (table_of (serve (router lib config env route r) t)).

(** * Properties *)

(** ** Vocabulary of the statements *)

(** The id a request carries in its path, [mux.Vars(r)["id"]]. *)
Definition id_of (r : Request) : string := default "" (mux_Vars r !! "id").

(** The response [http.Error(w, msg, code)] makes on a fresh writer. *)
Definition error_headers : gmap string string :=
  <["X-Content-Type-Options" := "nosniff"]>
    (<["Content-Type" := "text/plain; charset=utf-8"]> ∅).

Definition error_response (code : Z) (msg : string) : Response :=
  mkResponse code error_headers [Text (msg +:+ LF)].

(** The response of [http.Error(w, "", code)] followed by the encoding of
    [{"error": tag}]. *)
Definition tagged_response (code : Z) (tag : string) : Response :=
  mkResponse code error_headers [Text ("" +:+ LF); Json (error_json tag)].

Definition no_content : Response := mkResponse StatusNoContent ∅ [].
Definition created : Response := mkResponse StatusCreated ∅ [Json success_json].

Definition json_headers : gmap string string :=
  <["Content-Type" := "application/json"]> ∅.

(** The mail [sendEmail config env to subject body] hands over. *)
Definition mail (config : Configuration) (to subject body : string) : Event :=
  smtp_SendMail (SMTPHost config +:+ ":" +:+ SMTPPort config) (SMTPUser config) [to]
    ("To: " +:+ to +:+ CRLF +:+
     "From: " +:+ AdminEmail config +:+ CRLF +:+
     "Subject: =?utf-8?q?" +:+ subject +:+ "?=" +:+ CRLF +:+
     "Content-Type: text/plain; charset=" +:+ DQUOTE +:+ "UTF-8" +:+ DQUOTE +:+ CRLF +:+
     CRLF +:+
     body).

Definition answer (env : Env) (ev : Event) : option error :=
  match ev with
  | smtp_SendMail addr from to msg => smtp_result env addr from to msg
  | log_Printf _ => None
  end.

(** The events of one notification: the mail, and the log line when the
    SMTP server refuses it. *)
Definition notify (config : Configuration) (env : Env)
    (to subject body failure : string) : list Event :=
  mail config to subject body ::
  match answer env (mail config to subject body) with
  | Some e => [log_Printf (failure +:+ Error e)]
  | None => []
  end.

Definition is_mail (ev : Event) : bool :=
  match ev with smtp_SendMail _ _ _ _ => true | log_Printf _ => false end.

(** The mails among the events, and their number. *)
Definition mails (evs : list Event) : list Event := List.filter is_mail evs.
Definition notifications (evs : list Event) : nat := length (mails evs).

(** ** What each handler computes *)

Ltac run_handler :=
  cbv [serve mbind mret Handler_bind Handler_ret return_ skip get_db put_db emit
       modify_w w_Header_Set w_WriteHeader w_Write http_Error json_Encode log
       db_Select db_Get db_Exec_UPDATE db_NamedExec_INSERT sendEmail
       WriteHeader Write finish SELECT_by_id app
       h_db h_w h_out w_Header w_status w_body fst snd].

Lemma rejectEntry_run (r : Request) (t : Table) :
  serve (rejectEntry r) t =
  match t !! id_of r with
  | Some row => (no_content, <[id_of r := set_approved (-1) row]> t, [])
  | None => (error_response StatusNotFound "Entry not found", t, [])
  end.
Proof.
  unfold rejectEntry. fold (id_of r). run_handler.
  destruct (t !! id_of r); reflexivity.
Qed.

Lemma approveEntry_run (config : Configuration) (env : Env) (r : Request) (t : Table) :
  serve (approveEntry config env r) t =
  match t !! id_of r with
  | Some row =>
      (no_content, <[id_of r := set_approved 1 row]> t,
       if decide (col_email row ≠ "" ∧ col_approved row = 0) then
         notify config env (col_email row) mailEntryApprovedSubject
                (mailEntryApprovedBody (URL config)) "Failed to send email to author: "
       else [])
  | None => (error_response StatusInternalServerError (Error sql_ErrNoRows), t, [])
  end.
Proof.
  unfold approveEntry. fold (id_of r). run_handler.
  destruct (t !! id_of r) as [row|] eqn:Hrow; [|reflexivity].
  run_handler. rewrite Hrow. cbn [scan_email_approved Email Approved snd].
  destruct (decide (col_email row ≠ "" ∧ col_approved row = 0)); [|reflexivity].
  unfold notify, answer, mail.
  destruct (smtp_result env _ _ _ _); reflexivity.
Qed.

Lemma addComment_run (lib : Lib) (config : Configuration) (env : Env)
    (r : Request) (t : Table) :
  serve (addComment lib config env r) t =
  match t !! id_of r with
  | Some row =>
      match json_Decode_comment lib (Body r) with
      | inl comment =>
          (no_content, <[id_of r := set_comment comment row]> t,
           if decide (col_email row ≠ "" ∧ col_comment row = "") then
             notify config env (col_email row) mailEntryCommentSubject
                    (mailEntryCommentBody (URL config)) "Failed to send email to author: "
           else [])
      | inr err => (error_response StatusBadRequest (Error err), t, [])
      end
  | None => (error_response StatusInternalServerError (Error sql_ErrNoRows), t, [])
  end.
Proof.
  unfold addComment. fold (id_of r). run_handler.
  destruct (t !! id_of r) as [row|] eqn:Hrow; [|reflexivity].
  destruct (json_Decode_comment lib (Body r)) as [comment|err]; [|reflexivity].
  run_handler. rewrite Hrow. cbn [scan_email_comment Email Comment snd].
  destruct (decide (col_email row ≠ "" ∧ col_comment row = "")); [|reflexivity].
  unfold notify, answer, mail.
  destruct (smtp_result env _ _ _ _); reflexivity.
Qed.

Lemma getApprovedEntries_run (r : Request) (t : Table) :
  serve (getApprovedEntries r) t =
  (mkResponse StatusOK json_headers [Json (Entries_json (SELECT_approved t))], t, []).
Proof. reflexivity. Qed.

Lemma getEntry_run (r : Request) (t : Table) :
  serve (getEntry r) t =
  match t !! id_of r with
  | Some row =>
      (mkResponse StatusOK json_headers [Json (Entry_json (scan_all (id_of r, row)))], t, [])
  | None => (error_response StatusNotFound "Entry not found", t, [])
  end.
Proof.
  unfold getEntry. fold (id_of r). run_handler.
  destruct (t !! id_of r); reflexivity.
Qed.

(** The address [createEntry] files a submission under: the value of the
    forwarded-for header unless it is empty, the host part of the peer
    address otherwise. *)
Definition originating_address (lib : Lib) (r : Request) : string + error :=
  if decide (Header_Get (Header r) "X-Forwarded-For" = "") then
    match net_SplitHostPort lib (RemoteAddr r) with
    | inl (host, _) => inl host
    | inr err => inr err
    end
  else inl (Header_Get (Header r) "X-Forwarded-For").

(** The [created_at] the rate limit query returns for an address. *)
Definition last_created_at (ip : string) (t : Table) : option Z :=
  match ORDER_BY_created_at_DESC (filter (fun kv => col_ip kv.2 = ip) (map_to_list t)) with
  | kv :: _ => Some (col_created_at kv.2)
  | [] => None
  end.

Definition rate_limited (config : Configuration) (env : Env) (ip : string) (t : Table) : bool :=
  match last_created_at ip t with
  | Some last => bool_decide (time_Since env last < EntryWaitDuration config)
  | None => false
  end.

(** [createEntry] in direct style. *)
Definition createEntry_outcome (lib : Lib) (config : Configuration) (env : Env)
    (r : Request) (t : Table) : Response * Table * list Event :=
  match json_Decode_Entry lib (Body r) with
  | inr err => (error_response StatusBadRequest (Error err), t, [])
  | inl entry =>
      if decide (Code entry ≠ AntiSpamCode config) then
        (tagged_response StatusBadRequest "code", t, [])
      else
        match validateEntry entry with
        | Some _ => (tagged_response StatusBadRequest "validation", t, [])
        | None =>
            match originating_address lib r with
            | inr err => (error_response StatusInternalServerError (Error err), t, [])
            | inl ip =>
                if rate_limited config env ip t then
                  (tagged_response StatusTooManyRequests "postlimit", t, [])
                else
                  match generateID lib env with
                  | inr err => (error_response StatusInternalServerError (Error err), t, [])
                  | inl id =>
                      match t !! id with
                      | Some _ =>
                          (error_response StatusInternalServerError
                             "UNIQUE constraint failed: entries.id", t, [])
                      | None =>
                          (created,
                           <[id := mkRow (Name entry) (Email entry) (Message entry) ip 0 ""
                                         (CURRENT_TIMESTAMP env)]> t,
                           log_Printf ("New entry: " +:+ URL config +:+ "?GgbEntryID=" +:+ id) ::
                           notify config env (AdminEmail config) mailAdminEntryAddedSubject
                             (mailAdminEntryAddedBody (URL config +:+ "?GgbEntryID=" +:+ id))
                             "Failed to send email to admin: ")
                      end
                  end
            end
        end
  end.

Lemma createEntry_run (lib : Lib) (config : Configuration) (env : Env)
    (r : Request) (t : Table) :
  serve (createEntry lib config env r) t = createEntry_outcome lib config env r t.
Proof.
  unfold createEntry, createEntry_outcome.
  destruct (json_Decode_Entry lib (Body r)) as [entry|err]; [|reflexivity].
  run_handler.
  destruct (decide (Code entry ≠ AntiSpamCode config)); [reflexivity|].
  destruct (validateEntry entry); [reflexivity|].
  unfold originating_address.
  destruct (decide (Header_Get (Header r) "X-Forwarded-For" = "")) as [Hx|Hx].
  - destruct (net_SplitHostPort lib (RemoteAddr r)) as [[host port]|err]; [|reflexivity].
    unfold rate_limited, last_created_at, SELECT_last_created_at.
    destruct (ORDER_BY_created_at_DESC _) as [|kv rest]; cbn [take fmap list_fmap].
    + cbn [is_ErrNoRows negb].
      destruct (generateID lib env) as [id|err]; [|reflexivity].
      run_handler. cbn [ID].
      destruct (t !! id); [reflexivity|]. cbn [Name Email Message IP].
      unfold notify, answer, mail.
      destruct (smtp_result env _ _ _ _); reflexivity.
    + cbn [scan_created_at CreatedAt].
      destruct (decide (time_Since env (col_created_at kv.2) < EntryWaitDuration config)).
      * rewrite bool_decide_eq_true_2 by assumption. reflexivity.
      * rewrite bool_decide_eq_false_2 by assumption.
        destruct (generateID lib env) as [id|err]; [|reflexivity].
        run_handler. cbn [ID].
        destruct (t !! id); [reflexivity|]. cbn [Name Email Message IP].
        unfold notify, answer, mail.
        destruct (smtp_result env _ _ _ _); reflexivity.
  - unfold rate_limited, last_created_at, SELECT_last_created_at.
    destruct (ORDER_BY_created_at_DESC _) as [|kv rest]; cbn [take fmap list_fmap].
    + cbn [is_ErrNoRows negb].
      destruct (generateID lib env) as [id|err]; [|reflexivity].
      run_handler. cbn [ID].
      destruct (t !! id); [reflexivity|]. cbn [Name Email Message IP].
      unfold notify, answer, mail.
      destruct (smtp_result env _ _ _ _); reflexivity.
    + cbn [scan_created_at CreatedAt].
      destruct (decide (time_Since env (col_created_at kv.2) < EntryWaitDuration config)).
      * rewrite bool_decide_eq_true_2 by assumption. reflexivity.
      * rewrite bool_decide_eq_false_2 by assumption.
        destruct (generateID lib env) as [id|err]; [|reflexivity].
        run_handler. cbn [ID].
        destruct (t !! id); [reflexivity|]. cbn [Name Email Message IP].
        unfold notify, answer, mail.
        destruct (smtp_result env _ _ _ _); reflexivity.
Qed.

(** ** Concrete surroundings, to run the handlers on examples *)

(** The part before the last colon and the part after it: what
    [net.SplitHostPort] returns on an IPv4 peer address. *)
Fixpoint split_last_colon (s : string) : option (string * string) :=
  match s with
  | EmptyString => None
  | String c rest =>
      match split_last_colon rest with
      | Some (host, port) => Some (String c host, port)
      | None => if Ascii.eqb c ":" then Some (EmptyString, rest) else None
      end
  end.

(** A library for the examples: the hash is a stand-in (the identity), the
    decoder of entries reads [entry] from every body, the decoder of
    comments reads the body as the text of the comment. *)
Definition example_lib (entry : Entry) : Lib :=
  mkLib (fun b => b)
        (fun addr => match split_last_colon addr with
                     | Some hp => inl hp
                     | None => inr (errors_New "missing port in address")
                     end)
        (fun _ => inl entry)
        (fun text => inl text).

Definition example_config : Configuration :=
  mkConfiguration "guestbook.db" ":8080" "smtp.example.org" "587" "mailer" "hunter2"
                  "admin@example.org" "https://example.org/guestbook"
                  (60 * 1000000000) "4711".

(** Surroundings at the time [now] in which every mail is accepted. *)
Definition example_env (now : Z) : Env :=
  mkEnv now now (fun _ => inl "ab") (fun _ _ _ _ => None).

(** The same with an SMTP server that refuses every mail. *)
Definition example_env_smtp_down (now : Z) : Env :=
  mkEnv now now (fun _ => inl "ab")
        (fun _ _ _ _ => Some (errors_New "dial tcp: connection refused")).

Definition alice : Entry :=
  mkEntry "" "Alice Smith" "alice@example.com" "Hello there, this is my message."
          0 "" "" 0 "4711".

Definition alice_row : Row :=
  mkRow "Alice Smith" "alice@example.com" "Hello there, this is my message."
        "192.0.2.7" 0 "" 1000.

(** A request for the entry [id] with the given body. *)
Definition request_for (id body : string) : Request :=
  mkRequest ∅ "192.0.2.7:51234" {["id" := id]} body.

Lemma id_of_request_for (id body : string) : id_of (request_for id body) = id.
Proof. unfold id_of, request_for. cbn [mux_Vars]. by rewrite lookup_singleton_eq. Qed.

Example submit_alice :
  serve (createEntry (example_lib alice) example_config (example_env 1000)
           (request_for "" "")) ∅
  = (created, {["6162" := alice_row]},
     [log_Printf "New entry: https://example.org/guestbook?GgbEntryID=6162";
      mail example_config "admin@example.org" mailAdminEntryAddedSubject
        (mailAdminEntryAddedBody "https://example.org/guestbook?GgbEntryID=6162")]).
Proof. vm_compute. reflexivity. Qed.

(** ** Events of a notification *)

Lemma mails_notify config env to subject body failure :
  mails (notify config env to subject body failure) = [mail config to subject body].
Proof.
  unfold notify, mails.
  destruct (answer env _); reflexivity.
Qed.

Lemma notifications_notify config env to subject body failure :
  notifications (notify config env to subject body failure) = 1%nat.
Proof. unfold notifications. by rewrite mails_notify. Qed.


Lemma set_comment_same (row : Row) : set_comment (col_comment row) row = row.
Proof. by destruct row. Qed.

(** ** Requests for an id that no row has *)

(** C1, as the code has it.  On an id without a row [rejectEntry] answers
    404, as the claim says, but [approveEntry] and [addComment] answer 500
    with the text of [sql.ErrNoRows]: their [db.Get] fails first, and its
    error is not told apart from a storage failure.  None of the three
    sends a mail or touches the table. *)
Theorem missing_id_outcomes (lib : Lib) (config : Configuration) (env : Env)
    (r : Request) (t : Table) :
  t !! id_of r = None ->
  serve (approveEntry config env r) t
    = (error_response StatusInternalServerError "sql: no rows in result set", t, [])
  ∧ serve (addComment lib config env r) t
    = (error_response StatusInternalServerError "sql: no rows in result set", t, [])
  ∧ serve (rejectEntry r) t
    = (error_response StatusNotFound "Entry not found", t, []).
Proof.
  intros Hnone.
  rewrite approveEntry_run, addComment_run, rejectEntry_run, Hnone.
  auto.
Qed.

Lemma missing_id_outcomes_witness :
  ({["6162" := alice_row]} : Table) !! id_of (request_for "0000" "Thanks!") = None
  ∧ status (response_of (serve (approveEntry example_config (example_env 2000)
                                  (request_for "0000" "Thanks!"))
                               {["6162" := alice_row]}))
    = 500.
Proof.
  assert (H : ({["6162" := alice_row]} : Table) !! id_of (request_for "0000" "Thanks!") = None)
    by (vm_compute; reflexivity).
  split; [exact H|].
  destruct (missing_id_outcomes (example_lib alice) example_config (example_env 2000)
              (request_for "0000" "Thanks!") {["6162" := alice_row]} H) as [Happrove _].
  rewrite Happrove. reflexivity.
Defined.

(** ** The [approved] column *)

Definition approved_domain (t : Table) : Prop :=
  ∀ id row, t !! id = Some row ->
    col_approved row = -1 ∨ col_approved row = 0 ∨ col_approved row = 1.

Lemma approved_domain_insert (t : Table) (id : string) (row : Row) :
  approved_domain t ->
  col_approved row = -1 ∨ col_approved row = 0 ∨ col_approved row = 1 ->
  approved_domain (<[id := row]> t).
Proof.
  intros Ht Hrow id' row'. rewrite lookup_insert.
  case_decide; [intros [= <-]; exact Hrow | apply Ht].
Qed.

(** What [createEntry] does to the table: nothing, or one new pending row
    without a comment under an id that was free. *)
Lemma createEntry_table (lib : Lib) (config : Configuration) (env : Env)
    (r : Request) (t : Table) :
  table_of (serve (createEntry lib config env r) t) = t
  ∨ ∃ id row, t !! id = None ∧ col_approved row = 0 ∧ col_comment row = ""
      ∧ table_of (serve (createEntry lib config env r) t) = <[id := row]> t.
Proof.
  rewrite createEntry_run. unfold createEntry_outcome.
  destruct (json_Decode_Entry lib (Body r)) as [entry|]; [|by left].
  destruct (decide (Code entry ≠ AntiSpamCode config)); [by left|].
  destruct (validateEntry entry); [by left|].
  destruct (originating_address lib r) as [ip|]; [|by left].
  destruct (rate_limited config env ip t); [by left|].
  destruct (generateID lib env) as [id|]; [|by left].
  destruct (t !! id) eqn:Hid; [by left|].
  right. eexists id, _. repeat split; [exact Hid|reflexivity..].
Qed.

Lemma approved_domain_serve (lib : Lib) (config : Configuration) (env : Env)
    (route : Route) (r : Request) (t : Table) :
  approved_domain t ->
  approved_domain (table_of (serve (router lib config env route r) t)).
Proof.
  intros Ht. destruct route; cbn [router].
  - exact Ht.
  - destruct (createEntry_table lib config env r t) as [->|(id & row & _ & Hrow & _ & ->)];
      [exact Ht|].
    apply approved_domain_insert; auto.
  - rewrite getEntry_run. by destruct (t !! id_of r).
  - rewrite approveEntry_run. destruct (t !! id_of r); [|exact Ht].
    apply approved_domain_insert; cbn; auto.
  - rewrite rejectEntry_run. destruct (t !! id_of r); [|exact Ht].
    apply approved_domain_insert; cbn; auto.
  - rewrite addComment_run. destruct (t !! id_of r) as [row|] eqn:Hrow; [|exact Ht].
    destruct (json_Decode_comment lib (Body r)); [|exact Ht].
    apply approved_domain_insert; [exact Ht|]. cbn. eapply Ht, Hrow.
Qed.

Lemma reachable_approved_domain (lib : Lib) (config : Configuration) (t : Table) :
  reachable lib config t -> approved_domain t.
Proof.
  induction 1 as [|t env route r _ IH].
  - intros id row. by rewrite lookup_empty.
  - by apply approved_domain_serve.
Qed.

(** The table after Alice has submitted and the administrator approved. *)
Definition alice_approved : Table :=
  table_of (serve (router (example_lib alice) example_config (example_env 2000)
                          POST_approve (request_for "6162" ""))
    (table_of (serve (router (example_lib alice) example_config (example_env 1000)
                             POST_entries (request_for "" "")) ∅))).




(** ** Notifications of the author *)

(** C4.  On a stored entry Approve sends a mail exactly when the entry was
    pending ([approved = 0]) and has a non-empty address: then it sends one
    mail, the approval notice to that address, and otherwise none.  A
    second Approve of the entry, on the table the first one left and in any
    surroundings, sends none. *)
Theorem approve_notifies_once (config : Configuration) (env env' : Env)
    (r : Request) (t : Table) (row : Row) :
  t !! id_of r = Some row ->
  (notifications (events_of (serve (approveEntry config env r) t)) = 1%nat
     ↔ col_approved row = 0 ∧ col_email row ≠ "")
  ∧ (notifications (events_of (serve (approveEntry config env r) t)) = 0%nat
     ↔ ¬ (col_approved row = 0 ∧ col_email row ≠ ""))
  ∧ (col_approved row = 0 -> col_email row ≠ "" ->
     mails (events_of (serve (approveEntry config env r) t))
     = [mail config (col_email row) mailEntryApprovedSubject
             (mailEntryApprovedBody (URL config))])
  ∧ notifications
      (events_of (serve (approveEntry config env' r)
                        (table_of (serve (approveEntry config env r) t)))) = 0%nat.
Proof.
  intros Hrow.
  rewrite (approveEntry_run config env r t), Hrow. cbn [table_of events_of fst snd].
  rewrite approveEntry_run, lookup_insert_eq. cbn [events_of snd set_approved col_approved].
  split; [|split; [|split]].
  - case_decide as Hd; [rewrite notifications_notify|cbn]; split; try tauto; discriminate.
  - case_decide as Hd; [rewrite notifications_notify|cbn]; split; try tauto; discriminate.
  - intros H0 He. case_decide as Hd; [|tauto]. by rewrite mails_notify.
  - case_decide as Hd; [|reflexivity]. destruct Hd as [_ Hd]. discriminate.
Qed.

Lemma approve_notifies_once_witness :
  ({["6162" := alice_row]} : Table) !! id_of (request_for "6162" "") = Some alice_row
  ∧ notifications
      (events_of (serve (approveEntry example_config (example_env 2000) (request_for "6162" ""))
                        {["6162" := alice_row]})) = 1%nat.
Proof.
  assert (Hrow : ({["6162" := alice_row]} : Table) !! id_of (request_for "6162" "")
                 = Some alice_row) by (vm_compute; reflexivity).
  split; [exact Hrow|].
  destruct (approve_notifies_once example_config (example_env 2000) (example_env 3000)
              (request_for "6162" "") {["6162" := alice_row]} alice_row Hrow) as [Hiff _].
  apply Hiff. split; [reflexivity|discriminate].
Defined.

(** What a Comment sends: one mail when the stored comment was empty and
    the address is not, none otherwise, whatever the new text. *)
Lemma addComment_notifications (lib : Lib) (config : Configuration) (env : Env)
    (r : Request) (t : Table) (row : Row) (text : string) :
  t !! id_of r = Some row ->
  json_Decode_comment lib (Body r) = inl text ->
  table_of (serve (addComment lib config env r) t) = <[id_of r := set_comment text row]> t
  ∧ notifications (events_of (serve (addComment lib config env r) t))
    = (if decide (col_email row ≠ "" ∧ col_comment row = "") then 1 else 0)%nat.
Proof.
  intros Hrow Htext. rewrite addComment_run, Hrow, Htext.
  split; [reflexivity|]. cbn [events_of snd].
  case_decide; [apply notifications_notify|reflexivity].
Qed.

(** A Comment whose text is not empty is announced at most once: the
    Comment after it, whatever its text, sends nothing. *)
Lemma addComment_after_text_is_silent (lib : Lib) (config : Configuration) (env env' : Env)
    (r r' : Request) (t : Table) (row : Row) (text text' : string) :
  t !! id_of r = Some row ->
  id_of r' = id_of r ->
  json_Decode_comment lib (Body r) = inl text ->
  json_Decode_comment lib (Body r') = inl text' ->
  text ≠ "" ->
  notifications
    (events_of (serve (addComment lib config env' r')
                      (table_of (serve (addComment lib config env r) t)))) = 0%nat.
Proof.
  intros Hrow Hid Htext Htext' Hne.
  destruct (addComment_notifications lib config env r t row text Hrow Htext) as [-> _].
  assert (Hrow' : <[id_of r := set_comment text row]> t !! id_of r'
                  = Some (set_comment text row)) by (rewrite Hid; apply lookup_insert_eq).
  destruct (addComment_notifications lib config env' r' _ _ text' Hrow' Htext') as [_ ->].
  case_decide as Hd; [|reflexivity]. destruct Hd as [_ Hd]. cbn in Hd. contradiction.
Qed.

(** C5, as the code has it.  The test that guards the mail looks at the
    stored comment only.  A Comment with the empty text on an entry without
    a comment (and with an address) sends its mail and stores the empty
    text again, so the Comment after it finds the stored comment empty and
    sends a second mail: two Comment calls, two notifications. *)
Theorem addComment_empty_text_notifies_again (lib : Lib) (config : Configuration)
    (env env' : Env) (r r' : Request) (t : Table) (row : Row) (text' : string) :
  t !! id_of r = Some row ->
  id_of r' = id_of r ->
  col_email row ≠ "" ->
  col_comment row = "" ->
  json_Decode_comment lib (Body r) = inl "" ->
  json_Decode_comment lib (Body r') = inl text' ->
  notifications (events_of (serve (addComment lib config env r) t)) = 1%nat
  ∧ notifications
      (events_of (serve (addComment lib config env' r')
                        (table_of (serve (addComment lib config env r) t)))) = 1%nat.
Proof.
  intros Hrow Hid Hemail Hcomment Htext Htext'.
  destruct (addComment_notifications lib config env r t row "" Hrow Htext) as [-> ->].
  assert (Hrow' : <[id_of r := set_comment "" row]> t !! id_of r'
                  = Some (set_comment "" row)) by (rewrite Hid; apply lookup_insert_eq).
  destruct (addComment_notifications lib config env' r' _ _ text' Hrow' Htext') as [_ ->].
  split; case_decide as Hd; try reflexivity; exfalso; apply Hd; cbn; auto.
Qed.

Lemma addComment_empty_text_notifies_again_witness :
  notifications
    (events_of (serve (addComment (example_lib alice) example_config (example_env 2000)
                         (request_for "6162" ""))
                      {["6162" := alice_row]})) = 1%nat
  ∧ notifications
      (events_of
         (serve (addComment (example_lib alice) example_config (example_env 3000)
                   (request_for "6162" "Thanks!"))
            (table_of
               (serve (addComment (example_lib alice) example_config (example_env 2000)
                         (request_for "6162" ""))
                      {["6162" := alice_row]})))) = 1%nat.
Proof.
  apply (addComment_empty_text_notifies_again (example_lib alice) example_config
           (example_env 2000) (example_env 3000)
           (request_for "6162" "") (request_for "6162" "Thanks!")
           {["6162" := alice_row]} alice_row "Thanks!").
  - vm_compute; reflexivity.
  - reflexivity.
  - discriminate.
  - reflexivity.
  - reflexivity.
  - reflexivity.
Defined.

(** ** Frame of the moderation operations *)

(** C10.  On a stored entry Approve and Reject succeed (204) and write the
    [approved] column of that row only; a Comment whose body decodes
    succeeds and writes the [comment] column of that row only.  The other
    columns of the row, and every row under another id, are as before. *)
Theorem moderation_frame (lib : Lib) (config : Configuration) (env : Env)
    (r : Request) (t : Table) (row : Row) (text : string) :
  t !! id_of r = Some row ->
  json_Decode_comment lib (Body r) = inl text ->
  let same_but_approved (row' : Row) :=
    col_name row' = col_name row ∧ col_email row' = col_email row
    ∧ col_message row' = col_message row ∧ col_ip row' = col_ip row
    ∧ col_comment row' = col_comment row ∧ col_created_at row' = col_created_at row in
  let same_but_comment (row' : Row) :=
    col_name row' = col_name row ∧ col_email row' = col_email row
    ∧ col_message row' = col_message row ∧ col_ip row' = col_ip row
    ∧ col_approved row' = col_approved row ∧ col_created_at row' = col_created_at row in
  let others_kept (t' : Table) := ∀ id', id' ≠ id_of r -> t' !! id' = t !! id' in
  (status (response_of (serve (approveEntry config env r) t)) = StatusNoContent
   ∧ (∃ row', table_of (serve (approveEntry config env r) t) !! id_of r = Some row'
              ∧ col_approved row' = 1 ∧ same_but_approved row')
   ∧ others_kept (table_of (serve (approveEntry config env r) t)))
  ∧ (status (response_of (serve (rejectEntry r) t)) = StatusNoContent
   ∧ (∃ row', table_of (serve (rejectEntry r) t) !! id_of r = Some row'
              ∧ col_approved row' = -1 ∧ same_but_approved row')
   ∧ others_kept (table_of (serve (rejectEntry r) t)))
  ∧ (status (response_of (serve (addComment lib config env r) t)) = StatusNoContent
   ∧ (∃ row', table_of (serve (addComment lib config env r) t) !! id_of r = Some row'
              ∧ col_comment row' = text ∧ same_but_comment row')
   ∧ others_kept (table_of (serve (addComment lib config env r) t))).
Proof.
  intros Hrow Htext. cbv zeta.
  rewrite approveEntry_run, rejectEntry_run, addComment_run, Hrow, Htext.
  cbn [response_of table_of fst snd status no_content].
  repeat split;
    try (eexists; split; [apply lookup_insert_eq | cbn; tauto]);
    intros id' Hne; by rewrite lookup_insert_ne.
Qed.

Lemma moderation_frame_witness :
  table_of (serve (addComment (example_lib alice) example_config (example_env 2000)
                     (request_for "6162" "Thanks!"))
                  {["6162" := alice_row]}) !! "0000"
  = ({["6162" := alice_row]} : Table) !! "0000".
Proof.
  assert (Hrow : ({["6162" := alice_row]} : Table) !! id_of (request_for "6162" "Thanks!")
                 = Some alice_row) by (vm_compute; reflexivity).
  assert (Htext : json_Decode_comment (example_lib alice) (Body (request_for "6162" "Thanks!"))
                  = inl "Thanks!") by reflexivity.
  destruct (moderation_frame (example_lib alice) example_config (example_env 2000)
              (request_for "6162" "Thanks!") {["6162" := alice_row]} alice_row "Thanks!"
              Hrow Htext) as (_ & _ & _ & _ & Hothers).
  apply Hothers. rewrite id_of_request_for. discriminate.
Defined.

(** ** The matcher against the meaning of regular expressions *)

Lemma append_nil_inv (s1 s2 : string) : s1 +:+ s2 = "" -> s1 = "" ∧ s2 = "".
Proof. destruct s1; [auto|discriminate]. Qed.

Lemma append_cons_inv (s1 s2 s : string) (c : ascii) :
  s1 +:+ s2 = String c s ->
  (s1 = "" ∧ s2 = String c s) ∨ (∃ s1', s1 = String c s1' ∧ s = s1' +:+ s2).
Proof.
  destruct s1 as [|c1 s1]; cbn; [auto|].
  intros [= -> <-]. right. eauto.
Qed.

Ltac inv_Matches H := inversion H; clear H; subst.

Ltac split_append :=
  match goal with
  | Heq : _ +:+ _ = "" |- _ => apply append_nil_inv in Heq as [-> ->]
  | Heq : _ +:+ _ = String _ _ |- _ =>
      apply append_cons_inv in Heq as [[-> ->]|(? & -> & ->)]
  end.

Lemma nullable_Matches (r : regexp) : nullable r = true ↔ Matches r "".
Proof.
  induction r as [| |p|r1 IH1 r2 IH2|r1 IH1 r2 IH2|r IH]; cbn.
  - split; [discriminate|inversion 1].
  - split; [constructor|reflexivity].
  - split; [discriminate|inversion 1].
  - rewrite andb_true_iff, IH1, IH2. split.
    + intros [H1 H2]. change "" with ("" +:+ ""). by constructor.
    + intros H. inv_Matches H. split_append. auto.
  - rewrite orb_true_iff, IH1, IH2. split.
    + intros [H|H]; [by apply Matches_Alt_l|by apply Matches_Alt_r].
    + intros H. inv_Matches H; auto.
  - split; [constructor|reflexivity].
Qed.

(** A non-empty match of [r*] starts with a non-empty match of [r]. *)
Lemma Matches_Star_cons_inv (r : regexp) (c : ascii) (s : string) :
  Matches (Star r) (String c s) ->
  ∃ s1 s2, s = s1 +:+ s2 ∧ Matches r (String c s1) ∧ Matches (Star r) s2.
Proof.
  intros H. remember (Star r) as re eqn:Hre. remember (String c s) as w eqn:Hw.
  revert s Hw.
  induction H as [| | | | | |r' s1 s2 H1 _ H2 IH2]; try discriminate; intros s Hw.
  injection Hre as ->. split_append.
  - by apply IH2.
  - eauto.
Qed.

Lemma Matches_Cat_cons (r1 r2 : regexp) (c : ascii) (s1 s2 : string) :
  Matches r1 (String c s1) -> Matches r2 s2 -> Matches (Cat r1 r2) (String c (s1 +:+ s2)).
Proof.
  intros H1 H2. change (String c (s1 +:+ s2)) with (String c s1 +:+ s2). by constructor.
Qed.

Lemma Matches_Cat_nil_l (r1 r2 : regexp) (s : string) :
  Matches r1 "" -> Matches r2 s -> Matches (Cat r1 r2) s.
Proof.
  intros H1 H2. change s with ("" +:+ s). by constructor.
Qed.

Lemma deriv_Matches (r : regexp) (c : ascii) (s : string) :
  Matches (deriv c r) s ↔ Matches r (String c s).
Proof.
  revert s.
  induction r as [| |p|r1 IH1 r2 IH2|r1 IH1 r2 IH2|r IH]; intros s; cbn.
  - split; inversion 1.
  - split; inversion 1.
  - destruct (p c) eqn:Hp; split; intros H; inv_Matches H.
    + by constructor.
    + constructor.
    + congruence.
  - assert (Hcat : Matches (Cat (deriv c r1) r2) s ->
                   Matches (Cat r1 r2) (String c s)).
    { intros H. inv_Matches H. apply Matches_Cat_cons; [by apply IH1|done]. }
    assert (Hinv : Matches (Cat r1 r2) (String c s) ->
                   Matches (Cat (deriv c r1) r2) s
                   ∨ (nullable r1 = true ∧ Matches (deriv c r2) s)).
    { intros H. inv_Matches H. split_append.
      - right. split; [by apply nullable_Matches|by apply IH2].
      - left. constructor; [by apply IH1|done]. }
    destruct (nullable r1) eqn:Hnull; split.
    + intros H. inv_Matches H; [auto|].
      apply Matches_Cat_nil_l; [by apply nullable_Matches|by apply IH2].
    + intros H. destruct (Hinv H) as [?|[_ ?]];
        [by apply Matches_Alt_l|by apply Matches_Alt_r].
    + exact Hcat.
    + intros H. destruct (Hinv H) as [?|[? _]]; [done|discriminate].
  - split; intros H; inv_Matches H;
      ((apply Matches_Alt_l; by apply IH1) || (apply Matches_Alt_r; by apply IH2)).
  - split.
    + intros H. inv_Matches H.
      match goal with
      | |- Matches _ (String c (?s1 +:+ ?s2)) =>
          change (String c (s1 +:+ s2)) with (String c s1 +:+ s2)
      end.
      constructor; [by apply IH|done].
    + intros H. apply Matches_Star_cons_inv in H as (s1 & s2 & -> & H1 & H2).
      constructor; [by apply IH|done].
Qed.

(** [MatchString] decides whether the whole string is in the language. *)
Theorem MatchString_Matches (re : regexp) (s : string) :
  MatchString re s = true ↔ Matches re s.
Proof.
  revert re. induction s as [|c s IH]; intros re; cbn.
  - apply nullable_Matches.
  - rewrite IH. apply deriv_Matches.
Qed.

(** ** The addresses [isValidEmail] accepts *)

Fixpoint all_chars (p : ascii -> bool) (s : string) : bool :=
  match s with
  | EmptyString => true
  | String c rest => p c && all_chars p rest
  end.

Lemma Matches_Cat_iff (r1 r2 : regexp) (s : string) :
  Matches (Cat r1 r2) s ↔ ∃ s1 s2, s = s1 +:+ s2 ∧ Matches r1 s1 ∧ Matches r2 s2.
Proof.
  split.
  - intros H. inv_Matches H. eauto.
  - intros (s1 & s2 & -> & H1 & H2). by constructor.
Qed.

Lemma Matches_Class_iff (p : ascii -> bool) (s : string) :
  Matches (Class p) s ↔ ∃ c, s = String c "" ∧ p c = true.
Proof.
  split.
  - intros H. inv_Matches H. eauto.
  - intros (c & -> & Hp). by constructor.
Qed.

Lemma Matches_char_iff (c : ascii) (s : string) :
  Matches (Class (Ascii.eqb c)) s ↔ s = String c "".
Proof.
  rewrite Matches_Class_iff. split.
  - intros (c' & -> & Hc). apply Ascii.eqb_eq in Hc. by subst.
  - intros ->. exists c. split; [done|apply Ascii.eqb_refl].
Qed.

Lemma Matches_Star_Class (p : ascii -> bool) (s : string) :
  Matches (Star (Class p)) s ↔ all_chars p s = true.
Proof.
  split.
  - intros H. remember (Star (Class p)) as re eqn:Hre.
    induction H as [| | | | | |r s1 s2 H1 _ H2 IH2]; try discriminate; [done|].
    injection Hre as ->. inv_Matches H1. cbn.
    apply andb_true_iff. auto.
  - induction s as [|c s IH]; cbn; [constructor|].
    intros [Hc Hs]%andb_true_iff.
    change (String c s) with (String c "" +:+ s).
    constructor; [by constructor|auto].
Qed.

Lemma Matches_AtLeast_Class (n : nat) (p : ascii -> bool) (s : string) :
  Matches (AtLeast n (Class p)) s ↔ (n <= String.length s)%nat ∧ all_chars p s = true.
Proof.
  revert s. induction n as [|n IH]; intros s; cbn [AtLeast].
  - rewrite Matches_Star_Class. split; [intros H; split; [lia|done]|tauto].
  - rewrite Matches_Cat_iff. split.
    + intros (s1 & s2 & -> & H1 & H2).
      apply Matches_Class_iff in H1 as (c & -> & Hc). apply IH in H2 as [Hlen Hall].
      change (String c "" +:+ s2) with (String c s2).
      cbn [String.length all_chars]. rewrite Hc, Hall. split; [lia|done].
    + destruct s as [|c s]; cbn; [lia|].
      intros [Hlen [Hc Hs]%andb_true_iff].
      exists (String c ""), s. split; [done|]. split; [by constructor|].
      apply IH. split; [lia|done].
Qed.

Lemma Matches_Plus_Class (p : ascii -> bool) (s : string) :
  Matches (Plus (Class p)) s ↔ s ≠ "" ∧ all_chars p s = true.
Proof.
  change (Plus (Class p)) with (AtLeast 1 (Class p)).
  rewrite Matches_AtLeast_Class.
  destruct s; cbn; split; intros [H1 H2]; split; try done; lia.
Qed.

(** An address as the expression reads it: a non-empty local part, an at
    sign, a non-empty domain, a dot, and a top-level part of at least two
    letters at the very end. *)
Definition email_shape (s : string) : Prop :=
  ∃ local domain tld,
    s = local +:+ "@" +:+ domain +:+ "." +:+ tld
    ∧ local ≠ "" ∧ all_chars class_local local = true
    ∧ domain ≠ "" ∧ all_chars class_domain domain = true
    ∧ (2 <= String.length tld)%nat ∧ all_chars class_letter tld = true.

Lemma Matches_emailRegex (s : string) : Matches emailRegex s ↔ email_shape s.
Proof.
  unfold emailRegex, email_shape. split.
  - intros H.
    apply Matches_Cat_iff in H as (local & s1 & -> & Hlocal & H).
    apply Matches_Cat_iff in H as (at_ & s2 & -> & Hat & H).
    apply Matches_Cat_iff in H as (domain & s3 & -> & Hdomain & H).
    apply Matches_Cat_iff in H as (dot & tld & -> & Hdot & Htld).
    apply Matches_char_iff in Hat as ->. apply Matches_char_iff in Hdot as ->.
    apply Matches_Plus_Class in Hlocal as [? ?].
    apply Matches_Plus_Class in Hdomain as [? ?].
    apply Matches_AtLeast_Class in Htld as [? ?].
    exists local, domain, tld. auto 10.
  - intros (local & domain & tld & -> & ? & ? & ? & ? & ? & ?).
    repeat (apply Matches_Cat_iff; eexists _, _; split; [reflexivity|split]).
    + by apply Matches_Plus_Class.
    + by apply Matches_char_iff.
    + by apply Matches_Plus_Class.
    + by apply Matches_char_iff.
    + by apply Matches_AtLeast_Class.
Qed.

(** [isValidEmail] accepts the addresses of that shape and no other
    string. *)
Lemma isValidEmail_shape (email : string) : isValidEmail email = true ↔ email_shape email.
Proof. unfold isValidEmail. by rewrite MatchString_Matches, Matches_emailRegex. Qed.

(** ** The queries *)

#[export] Instance created_at_desc_trans : Transitive created_at_desc.
Proof. intros a b c. unfold created_at_desc. lia. Qed.

#[export] Instance created_at_desc_total : Total created_at_desc.
Proof. intros a b. unfold created_at_desc. lia. Qed.

Lemma ORDER_BY_Permutation (rows : list (string * Row)) :
  ORDER_BY_created_at_DESC rows ≡ₚ rows.
Proof. apply merge_sort_Permutation. Qed.

Lemma ORDER_BY_StronglySorted (rows : list (string * Row)) :
  StronglySorted created_at_desc (ORDER_BY_created_at_DESC rows).
Proof. apply StronglySorted_merge_sort; apply _. Qed.

Lemma elem_of_ORDER_BY (rows : list (string * Row)) (kv : string * Row) :
  kv ∈ ORDER_BY_created_at_DESC rows ↔ kv ∈ rows.
Proof. by rewrite ORDER_BY_Permutation. Qed.

(** A row of the table that satisfies the WHERE clause. *)
Lemma elem_of_WHERE (P : string * Row -> Prop) `{!∀ kv, Decision (P kv)}
    (t : Table) (kv : string * Row) :
  kv ∈ filter P (map_to_list t) ↔ t !! kv.1 = Some kv.2 ∧ P kv.
Proof.
  rewrite list_elem_of_filter. destruct kv as [id row].
  rewrite elem_of_map_to_list. cbn. tauto.
Qed.

(** The rate limit query finds the latest submission filed under the
    address, and finds none only when the table has none. *)
Lemma last_created_at_Some (ip : string) (t : Table) (last : Z) :
  last_created_at ip t = Some last ->
  ∃ id row, t !! id = Some row ∧ col_ip row = ip ∧ col_created_at row = last
    ∧ ∀ id' row', t !! id' = Some row' -> col_ip row' = ip ->
        col_created_at row' <= last.
Proof.
  unfold last_created_at.
  pose proof (ORDER_BY_StronglySorted
                (filter (fun kv => col_ip kv.2 = ip) (map_to_list t))) as Hsorted.
  pose proof (elem_of_ORDER_BY
                (filter (fun kv => col_ip kv.2 = ip) (map_to_list t))) as Helem.
  destruct (ORDER_BY_created_at_DESC _) as [|[id row] rest]; [discriminate|].
  intros [= <-].
  exists id, row.
  assert (Hin : t !! id = Some row ∧ col_ip row = ip).
  { apply (elem_of_WHERE (fun kv => col_ip kv.2 = ip) t (id, row)), Helem. by left. }
  destruct Hin as [Hrow Hip]. repeat split; [done..|].
  intros id' row' Hrow' Hip'.
  assert (Hin' : (id', row') ∈ (id, row) :: rest).
  { apply Helem, (elem_of_WHERE (fun kv => col_ip kv.2 = ip) t (id', row')). by split. }
  apply elem_of_cons in Hin' as [[= -> ->]|Hin']; [cbn; lia|].
  apply StronglySorted_inv in Hsorted as [_ Hall].
  rewrite Forall_forall in Hall. by apply (Hall (id', row')).
Qed.

Lemma last_created_at_None (ip : string) (t : Table) :
  last_created_at ip t = None ->
  ∀ id row, t !! id = Some row -> col_ip row ≠ ip.
Proof.
  unfold last_created_at.
  pose proof (elem_of_ORDER_BY
                (filter (fun kv => col_ip kv.2 = ip) (map_to_list t))) as Helem.
  destruct (ORDER_BY_created_at_DESC _) as [|kv rest]; [|discriminate].
  intros _ id row Hrow Hip.
  assert (Hin : (id, row) ∈ @nil (string * Row)).
  { apply Helem, (elem_of_WHERE (fun kv => col_ip kv.2 = ip) t (id, row)). by split. }
  by apply elem_of_nil in Hin.
Qed.

(** The order of the listing on the entries it returns. *)
Definition newest_first : relation Entry :=
  fun e1 e2 => CreatedAt e2 <= CreatedAt e1.

Lemma SELECT_approved_Permutation (t : Table) :
  SELECT_approved t ≡ₚ
  scan_listing <$> filter (fun kv => col_approved kv.2 = 1) (map_to_list t).
Proof. unfold SELECT_approved. by rewrite ORDER_BY_Permutation. Qed.

Lemma SELECT_approved_sorted (t : Table) :
  StronglySorted newest_first (SELECT_approved t).
Proof.
  unfold SELECT_approved.
  apply StronglySorted_fmap with (R1 := created_at_desc).
  - intros kv1 kv2 H. exact H.
  - apply ORDER_BY_StronglySorted.
Qed.

Lemma elem_of_SELECT_approved (t : Table) (e : Entry) :
  e ∈ SELECT_approved t ↔
  ∃ id row, t !! id = Some row ∧ col_approved row = 1 ∧ e = scan_listing (id, row).
Proof.
  rewrite SELECT_approved_Permutation, list_elem_of_fmap. split.
  - intros ([id row] & -> & Hin).
    apply (elem_of_WHERE (fun kv => col_approved kv.2 = 1)) in Hin as [Hrow Happroved].
    eauto.
  - intros (id & row & Hrow & Happroved & ->). exists (id, row). split; [done|].
    by apply (elem_of_WHERE (fun kv => col_approved kv.2 = 1)).
Qed.

(** ** The public listing *)

Definition json_members (v : json) : list (string * json) :=
  match v with
  | JObject members => members
  | _ => []
  end.

(** C3 fails as stated.  On the reachable table [alice_approved] the
    body of the listing is an array with one object, and that object has a
    member named [id] (and members [email] and [code]): the struct tags of
    [Entry] name them without [omitempty], so [encoding/json] writes them
    although the query did not select them.  What they hold is the empty
    string. *)
Lemma listing_carries_id_member :
  reachable (example_lib alice) example_config alice_approved
  ∧ body (response_of (serve (getApprovedEntries (request_for "" "")) alice_approved))
    = [Json (JArray [JObject [("id", JString ""); ("name", JString "Alice Smith");
                              ("email", JString "");
                              ("message", JString "Hello there, this is my message.");
                              ("approved", JInt 1); ("comment", JString "");
                              ("created_at", JTime 1000); ("code", JString "")]])]
  ∧ "id" ∈ fst <$> json_members
             (JObject [("id", JString ""); ("name", JString "Alice Smith");
                       ("email", JString "");
                       ("message", JString "Hello there, this is my message.");
                       ("approved", JInt 1); ("comment", JString "");
                       ("created_at", JTime 1000); ("code", JString "")]).
Proof.
  split; [|split].
  - unfold alice_approved. do 2 apply reachable_serve. apply reachable_empty.
  - vm_compute. reflexivity.
  - cbn. by left.
Qed.

(** C3, amended.  ListApproved answers 200 and changes nothing.  Its body
    is made from the rows with [approved = 1], each once and no other
    row, in the order of [created_at] descending: the JSON [null] when
    there is none, and otherwise an array with one object per row.  Each
    object has the members [id], [name], [email], [message], [approved],
    [comment], [created_at] and [code] and no member [ip]; [name],
    [message], [approved], [comment] and [created_at] hold the columns of
    the row, while [id], [email] and [code] hold the empty string for
    every row, so that no stored id, address of origin or mail address is
    in the response. *)
Theorem listing_is_approved_newest_first (r : Request) (t : Table) :
  ∃ rows : list (string * Row),
    rows ≡ₚ filter (fun kv => col_approved kv.2 = 1) (map_to_list t)
    ∧ (∀ id row, (id, row) ∈ rows ↔ t !! id = Some row ∧ col_approved row = 1)
    ∧ StronglySorted (fun a b => col_created_at b.2 <= col_created_at a.2) rows
    ∧ serve (getApprovedEntries r) t
      = (mkResponse 200 (<["Content-Type" := "application/json"]> ∅)
           [Json (match rows with
                  | [] => JNull
                  | _ =>
                      JArray
                        ((fun kv =>
                            JObject [("id", JString "");
                                     ("name", JString (col_name kv.2));
                                     ("email", JString "");
                                     ("message", JString (col_message kv.2));
                                     ("approved", JInt (col_approved kv.2));
                                     ("comment", JString (col_comment kv.2));
                                     ("created_at", JTime (col_created_at kv.2));
                                     ("code", JString "")]) <$> rows)
                  end)],
         t, []).
Proof.
  exists (ORDER_BY_created_at_DESC
            (filter (fun kv => col_approved kv.2 = 1) (map_to_list t))).
  split; [apply ORDER_BY_Permutation|].
  split; [|split].
  - intros id row. rewrite elem_of_ORDER_BY.
    apply (elem_of_WHERE (fun kv => col_approved kv.2 = 1) t (id, row)).
  - exact (ORDER_BY_StronglySorted _).
  - rewrite getApprovedEntries_run. unfold SELECT_approved.
    destruct (ORDER_BY_created_at_DESC _) as [|kv rest]; [reflexivity|].
    unfold Entries_json. cbn [fmap list_fmap].
    rewrite <- list_fmap_compose. reflexivity.
Qed.

Example listing_of_alice_approved :
  response_of (serve (getApprovedEntries (request_for "" "")) alice_approved)
  = mkResponse StatusOK json_headers
      [Json (JArray [JObject [("id", JString ""); ("name", JString "Alice Smith");
                              ("email", JString "");
                              ("message", JString "Hello there, this is my message.");
                              ("approved", JInt 1); ("comment", JString "");
                              ("created_at", JTime 1000); ("code", JString "")]])].
Proof. vm_compute. reflexivity. Qed.

Example listing_of_pending_alice :
  response_of (serve (getApprovedEntries (request_for "" "")) {["6162" := alice_row]})
  = mkResponse StatusOK json_headers [Json JNull].
Proof. vm_compute. reflexivity. Qed.

(** ** Validation and the anti-spam code *)

(** The entries [validateEntry] turns down, in the words of the rules. *)
Definition invalid_fields (entry : Entry) : Prop :=
  (String.length (Name entry) < 3)%nat ∨ (String.length (Name entry) > 100)%nat
  ∨ (String.length (Email entry) < 6)%nat ∨ (String.length (Email entry) > 100)%nat
  ∨ ¬ Matches emailRegex (Email entry)
  ∨ (String.length (Message entry) < 10)%nat ∨ (String.length (Message entry) > 2000)%nat.

Ltac pick_disjunct :=
  first [lia | assumption | left; pick_disjunct | right; pick_disjunct].

Lemma validateEntry_spec (entry : Entry) :
  match validateEntry entry with
  | Some _ => invalid_fields entry
  | None => ¬ invalid_fields entry
  end.
Proof.
  unfold validateEntry, invalid_fields, nameMinLen, nameMaxLen, emailMinLen, emailMaxLen,
    messageMinLen, messageMaxLen.
  destruct (Nat.ltb_spec (String.length (Name entry)) 3); [pick_disjunct|].
  destruct (Nat.ltb_spec 100 (String.length (Name entry))); [pick_disjunct|].
  destruct (Nat.ltb_spec (String.length (Email entry)) 6); [pick_disjunct|].
  destruct (Nat.ltb_spec 100 (String.length (Email entry))); [pick_disjunct|].
  destruct (Nat.ltb_spec (String.length (Message entry)) 10); [pick_disjunct|].
  destruct (Nat.ltb_spec 2000 (String.length (Message entry))); [pick_disjunct|].
  cbn [orb]. unfold isValidEmail.
  destruct (MatchString emailRegex (Email entry)) eqn:Hmatch; cbn [negb].
  - intros [?|[?|[?|[?|[Hm|[?|?]]]]]]; try lia. by apply Hm, MatchString_Matches.
  - do 4 right. left. intros Hm%MatchString_Matches. congruence.
Qed.

Lemma validateEntry_None (entry : Entry) :
  validateEntry entry = None ↔ ¬ invalid_fields entry.
Proof.
  pose proof (validateEntry_spec entry) as H.
  destruct (validateEntry entry); split; done.
Qed.

Lemma validateEntry_Some (entry : Entry) :
  is_Some (validateEntry entry) ↔ invalid_fields entry.
Proof.
  pose proof (validateEntry_spec entry) as H.
  destruct (validateEntry entry); split; done.
Qed.

Ltac status_clash H :=
  apply (f_equal status) in H;
  cbv [status error_response tagged_response created no_content
       StatusOK StatusCreated StatusNoContent StatusBadRequest StatusNotFound
       StatusTooManyRequests StatusInternalServerError] in H;
  discriminate H.

(** C8.  A submission whose code is not the configured one is answered
    400 with the error tag [code], whatever its other fields are: the test
    comes before validation, rate limit and INSERT.  The table is as before
    and no mail is sent. *)
Theorem createEntry_wrong_code (lib : Lib) (config : Configuration) (env : Env)
    (r : Request) (t : Table) (entry : Entry) :
  json_Decode_Entry lib (Body r) = inl entry ->
  Code entry ≠ AntiSpamCode config ->
  serve (createEntry lib config env r) t
  = (tagged_response StatusBadRequest "code", t, []).
Proof.
  intros Hentry Hcode.
  rewrite createEntry_run. unfold createEntry_outcome. rewrite Hentry.
  by rewrite decide_True.
Qed.

Definition mallory : Entry :=
  mkEntry "" "Mallory" "mallory@example.net" "Buy cheap watches today!" 0 "" "" 0 "0000".

Lemma createEntry_wrong_code_witness :
  serve (createEntry (example_lib mallory) example_config (example_env 1000)
           (request_for "" "")) ∅
  = (tagged_response StatusBadRequest "code", ∅, []).
Proof.
  apply (createEntry_wrong_code (example_lib mallory) example_config (example_env 1000)
           (request_for "" "") ∅ mallory).
  - reflexivity.
  - discriminate.
Defined.

(** C7.  A submission with the right code is answered 400 with the error
    tag [validation], the table left as it was, exactly when a field breaks
    a rule: a name shorter than 3 or longer than 100, an address shorter
    than 6, longer than 100 or outside the language of [emailRegex], a
    message shorter than 10 or longer than 2000.  The answer is the same
    for every such submission, so it does not tell which rule was broken;
    nothing is inserted and no mail is sent. *)
Theorem createEntry_validation (lib : Lib) (config : Configuration) (env : Env)
    (r : Request) (t : Table) (entry : Entry) :
  json_Decode_Entry lib (Body r) = inl entry ->
  Code entry = AntiSpamCode config ->
  (response_of (serve (createEntry lib config env r) t)
     = tagged_response StatusBadRequest "validation"
   ∧ table_of (serve (createEntry lib config env r) t) = t
   ↔ invalid_fields entry)
  ∧ (invalid_fields entry ->
     serve (createEntry lib config env r) t
     = (tagged_response StatusBadRequest "validation", t, [])).
Proof.
  intros Hentry Hcode.
  rewrite createEntry_run. unfold createEntry_outcome. rewrite Hentry.
  rewrite decide_False by (intros Hne; by apply Hne).
  pose proof (validateEntry_spec entry) as Hvalid.
  destruct (validateEntry entry) as [err|].
  { split; [|done]. split; [done|]. by intros _. }
  split; [|done]. split; [|done].
  intros [Hresp _]. exfalso. revert Hresp. cbn [response_of fst].
  destruct (originating_address lib r) as [ip|]; [|intros H; status_clash H].
  destruct (rate_limited config env ip t); [intros H; status_clash H|].
  destruct (generateID lib env) as [id|]; [|intros H; status_clash H].
  destruct (t !! id); intros H; status_clash H.
Qed.

Definition bob : Entry :=
  mkEntry "" "Bo" "bob@example.com" "Greetings from the coast." 0 "" "" 0 "4711".

Lemma createEntry_validation_witness :
  serve (createEntry (example_lib bob) example_config (example_env 1000)
           (request_for "" "")) ∅
  = (tagged_response StatusBadRequest "validation", ∅, []).
Proof.
  apply (createEntry_validation (example_lib bob) example_config (example_env 1000)
           (request_for "" "") ∅ bob).
  - reflexivity.
  - reflexivity.
  - left. cbn. lia.
Defined.

(** ** The rate limit *)

(** Within the range of a [Duration], [time.Since] is the difference. *)
Lemma time_Sub_exact (t u : Z) :
  minDuration <= t - u <= maxDuration -> time_Sub t u = t - u.
Proof.
  intros [Hlo Hhi]. unfold time_Sub.
  destruct (Z.ltb_spec (t - u) minDuration); [lia|].
  destruct (Z.ltb_spec maxDuration (t - u)); [lia|done].
Qed.

(** Against a wait that is a [Duration] above the least one, the
    saturated difference and the exact one compare alike. *)
Lemma time_Sub_lt (t u wait : Z) :
  minDuration < wait <= maxDuration -> (time_Sub t u < wait ↔ t - u < wait).
Proof.
  intros [Hlo Hhi]. unfold time_Sub.
  destruct (Z.ltb_spec (t - u) minDuration); [lia|].
  destruct (Z.ltb_spec maxDuration (t - u)); lia.
Qed.

Lemma time_Sub_antitone (t u u' : Z) : u <= u' -> time_Sub t u' <= time_Sub t u.
Proof.
  intros Hle. unfold time_Sub, minDuration, maxDuration.
  destruct (Z.ltb_spec (t - u') (- 2 ^ 63)); destruct (Z.ltb_spec (t - u) (- 2 ^ 63));
    destruct (Z.ltb_spec (2 ^ 63 - 1) (t - u')); destruct (Z.ltb_spec (2 ^ 63 - 1) (t - u));
    lia.
Qed.

Lemma rate_limited_true (config : Configuration) (env : Env) (ip : string) (t : Table) :
  rate_limited config env ip t = true ↔
  ∃ id row, t !! id = Some row ∧ col_ip row = ip
    ∧ (∀ id' row', t !! id' = Some row' -> col_ip row' = ip ->
         col_created_at row' <= col_created_at row)
    ∧ time_Since env (col_created_at row) < EntryWaitDuration config.
Proof.
  unfold rate_limited.
  destruct (last_created_at ip t) as [last|] eqn:Hlast.
  - apply last_created_at_Some in Hlast as (id & row & Hrow & Hip & <- & Hmax).
    rewrite bool_decide_eq_true. split.
    + intros Hlt. exists id, row. auto.
    + intros (id' & row' & Hrow' & Hip' & Hmax' & Hlt).
      assert (col_created_at row' = col_created_at row) as <-; [|done].
      apply Z.le_antisymm; eauto.
  - split; [discriminate|].
    intros (id & row & Hrow & Hip & _). exfalso.
    by apply (last_created_at_None ip t Hlast id row).
Qed.

(** C6.  For a submission that has passed the code test and validation,
    filed under the address [ip]: Submit answers 429 with the tag
    [postlimit] exactly when the table holds a submission from [ip] and the
    time since the latest of them, [time.Since] of its [created_at], is
    below [EntryWaitDuration]; the table is then left as it was and nothing
    is sent.  A first submission from an address is never answered
    [postlimit].  The address is the value of the [X-Forwarded-For] header
    when [Header.Get] finds one that is not empty, and the host part of
    [RemoteAddr] otherwise. *)
Theorem createEntry_postlimit (lib : Lib) (config : Configuration) (env : Env)
    (r : Request) (t : Table) (entry : Entry) (ip : string) :
  json_Decode_Entry lib (Body r) = inl entry ->
  Code entry = AntiSpamCode config ->
  ¬ invalid_fields entry ->
  originating_address lib r = inl ip ->
  (response_of (serve (createEntry lib config env r) t)
     = tagged_response StatusTooManyRequests "postlimit"
   ↔ ∃ id row, t !! id = Some row ∧ col_ip row = ip
       ∧ (∀ id' row', t !! id' = Some row' -> col_ip row' = ip ->
            col_created_at row' <= col_created_at row)
       ∧ time_Since env (col_created_at row) < EntryWaitDuration config)
  ∧ (response_of (serve (createEntry lib config env r) t)
       = tagged_response StatusTooManyRequests "postlimit" ->
     table_of (serve (createEntry lib config env r) t) = t
     ∧ events_of (serve (createEntry lib config env r) t) = [])
  ∧ ((∀ id row, t !! id = Some row -> col_ip row ≠ ip) ->
     response_of (serve (createEntry lib config env r) t)
       ≠ tagged_response StatusTooManyRequests "postlimit")
  ∧ (Header_Get (Header r) "X-Forwarded-For" ≠ "" ->
     ip = Header_Get (Header r) "X-Forwarded-For")
  ∧ (Header_Get (Header r) "X-Forwarded-For" = "" ->
     ∃ port, net_SplitHostPort lib (RemoteAddr r) = inl (ip, port)).
Proof.
  intros Hentry Hcode Hvalid Hip.
  assert (Hiff : response_of (serve (createEntry lib config env r) t)
                   = tagged_response StatusTooManyRequests "postlimit"
                 ↔ rate_limited config env ip t = true).
  { rewrite createEntry_run. unfold createEntry_outcome. rewrite Hentry.
    rewrite decide_False by (intros Hne; by apply Hne).
    apply validateEntry_None in Hvalid as ->. rewrite Hip.
    destruct (rate_limited config env ip t); [done|].
    cbn [response_of fst]. split; [|discriminate].
    destruct (generateID lib env) as [id|]; [|intros H; status_clash H].
    destruct (t !! id); intros H; status_clash H. }
  split; [by rewrite Hiff, rate_limited_true|].
  split; [|split; [|split]].
  - rewrite Hiff. intros Hlimited.
    rewrite createEntry_run. unfold createEntry_outcome. rewrite Hentry.
    rewrite decide_False by (intros Hne; by apply Hne).
    apply validateEntry_None in Hvalid as ->. by rewrite Hip, Hlimited.
  - intros Hfirst. rewrite Hiff, rate_limited_true.
    intros (id & row & Hrow & Hrip & _). by apply (Hfirst id row).
  - intros Hx. unfold originating_address in Hip.
    rewrite decide_False in Hip by done. by injection Hip.
  - intros Hx. unfold originating_address in Hip.
    rewrite decide_True in Hip by done.
    destruct (net_SplitHostPort lib (RemoteAddr r)) as [[host port]|]; [|discriminate].
    injection Hip as ->. by exists port.
Qed.

Lemma createEntry_postlimit_witness :
  response_of (serve (createEntry (example_lib alice) example_config (example_env 2000)
                        (request_for "" ""))
                     {["6162" := alice_row]})
  = tagged_response StatusTooManyRequests "postlimit".
Proof.
  apply (createEntry_postlimit (example_lib alice) example_config (example_env 2000)
           (request_for "" "") {["6162" := alice_row]} alice "192.0.2.7").
  - reflexivity.
  - reflexivity.
  - apply validateEntry_None. vm_compute. reflexivity.
  - vm_compute. reflexivity.
  - exists "6162", alice_row. split; [by vm_compute|]. split; [reflexivity|]. split.
    + intros id' row' [_ <-]%lookup_singleton_Some. reflexivity.
    + vm_compute. reflexivity.
Defined.

(** Two accepted submissions from one address cannot follow each other
    within the wait: once a submission is stored under [ip] at the time
    [created], a valid one from [ip] is answered [postlimit] as long as the
    time since [created] is below [EntryWaitDuration]. *)
Lemma createEntry_second_within_wait (lib : Lib) (config : Configuration) (env : Env)
    (r : Request) (t : Table) (entry : Entry) (ip id : string) (row : Row) :
  json_Decode_Entry lib (Body r) = inl entry ->
  Code entry = AntiSpamCode config ->
  ¬ invalid_fields entry ->
  originating_address lib r = inl ip ->
  t !! id = Some row ->
  col_ip row = ip ->
  time_Since env (col_created_at row) < EntryWaitDuration config ->
  serve (createEntry lib config env r) t
  = (tagged_response StatusTooManyRequests "postlimit", t, []).
Proof.
  intros Hentry Hcode Hvalid Hip Hrow Hrip Hlt.
  rewrite createEntry_run. unfold createEntry_outcome. rewrite Hentry.
  rewrite decide_False by (intros Hne; by apply Hne).
  apply validateEntry_None in Hvalid as ->. rewrite Hip.
  assert (rate_limited config env ip t = true) as ->; [|done].
  unfold rate_limited.
  destruct (last_created_at ip t) as [last|] eqn:Hlast.
  - apply last_created_at_Some in Hlast as (id' & row' & _ & _ & <- & Hmax).
    apply bool_decide_eq_true.
    pose proof (Hmax id row Hrow Hrip) as Hle.
    pose proof (time_Sub_antitone (time_Now env) _ _ Hle) as Hanti.
    unfold time_Since in *. lia.
  - exfalso. by apply (last_created_at_None ip t Hlast id row).
Qed.

(** ** Failures of the SMTP server *)

(** The surroundings [env] with another SMTP server. *)
Definition with_smtp (env : Env)
    (smtp : string -> string -> list string -> string -> option error) : Env :=
  mkEnv (time_Now env) (CURRENT_TIMESTAMP env) (rand_Read env) smtp.

(** Every mail that the server refused is followed at once by the log
    line that reports the error. *)
Fixpoint failures_logged (env : Env) (evs : list Event) : Prop :=
  match evs with
  | [] => True
  | ev :: rest =>
      match answer env ev with
      | Some e =>
          match rest with
          | log_Printf line :: _ =>
              line = "Failed to send email to admin: " +:+ Error e
              ∨ line = "Failed to send email to author: " +:+ Error e
          | _ => False
          end
      | None => True
      end ∧ failures_logged env rest
  end.

Lemma failures_logged_notify (config : Configuration) (env : Env)
    (to subject body failure : string) :
  failure = "Failed to send email to admin: " ∨ failure = "Failed to send email to author: " ->
  failures_logged env (notify config env to subject body failure).
Proof.
  intros Hfailure. unfold notify.
  destruct (answer env (mail config to subject body)) as [e|] eqn:Hanswer;
    cbn [failures_logged]; rewrite Hanswer; cbn [answer]; [|done].
  destruct Hfailure as [-> | ->]; auto.
Qed.

Lemma rate_limited_with_smtp config env smtp ip t :
  rate_limited config (with_smtp env smtp) ip t = rate_limited config env ip t.
Proof. reflexivity. Qed.

Lemma generateID_with_smtp lib env smtp :
  generateID lib (with_smtp env smtp) = generateID lib env.
Proof. reflexivity. Qed.

(** The three fields of an outcome that the caller and the table see, and
    the mails that went out. *)
Definition same_outcome (res res' : Response * Table * list Event) : Prop :=
  response_of res = response_of res'
  ∧ table_of res = table_of res'
  ∧ mails (events_of res) = mails (events_of res').

(** C9.  For Submit, Approve and Comment alike, on every table and
    request: the response (status, headers, body), the table afterwards
    and the mails attempted are the same under any two SMTP servers, one
    that accepts and one that refuses included; and in the events of the
    run each refused mail is followed at once by the log line that carries
    its error. *)
Theorem smtp_failure_is_logged_not_propagated (lib : Lib) (config : Configuration)
    (env : Env) (smtp : string -> string -> list string -> string -> option error)
    (r : Request) (t : Table) :
  (same_outcome (serve (createEntry lib config env r) t)
                (serve (createEntry lib config (with_smtp env smtp) r) t)
   ∧ failures_logged env (events_of (serve (createEntry lib config env r) t)))
  ∧ (same_outcome (serve (approveEntry config env r) t)
                  (serve (approveEntry config (with_smtp env smtp) r) t)
     ∧ failures_logged env (events_of (serve (approveEntry config env r) t)))
  ∧ (same_outcome (serve (addComment lib config env r) t)
                  (serve (addComment lib config (with_smtp env smtp) r) t)
     ∧ failures_logged env (events_of (serve (addComment lib config env r) t))).
Proof.
  unfold same_outcome. split; [|split].
  - rewrite !createEntry_run. unfold createEntry_outcome.
    destruct (json_Decode_Entry lib (Body r)) as [entry|]; [|done].
    destruct (decide (Code entry ≠ AntiSpamCode config)); [done|].
    destruct (validateEntry entry); [done|].
    destruct (originating_address lib r) as [ip|]; [|done].
    rewrite rate_limited_with_smtp, generateID_with_smtp.
    destruct (rate_limited config env ip t); [done|].
    destruct (generateID lib env) as [id|]; [|done].
    destruct (t !! id); [done|].
    cbn [response_of table_of events_of fst snd].
    split; [split; [done|split; [done|]]|].
    + unfold mails. cbn [List.filter is_mail]. fold (mails (notify config env
        (AdminEmail config) mailAdminEntryAddedSubject
        (mailAdminEntryAddedBody (URL config +:+ "?GgbEntryID=" +:+ id))
        "Failed to send email to admin: ")).
      fold (mails (notify config (with_smtp env smtp)
        (AdminEmail config) mailAdminEntryAddedSubject
        (mailAdminEntryAddedBody (URL config +:+ "?GgbEntryID=" +:+ id))
        "Failed to send email to admin: ")).
      by rewrite !mails_notify.
    + cbn [failures_logged answer]. split; [done|].
      apply failures_logged_notify. by left.
  - rewrite !approveEntry_run. destruct (t !! id_of r) as [row|]; [|done].
    cbn [response_of table_of events_of fst snd].
    case_decide; [|done].
    split; [by rewrite !mails_notify|]. apply failures_logged_notify. by right.
  - rewrite !addComment_run. destruct (t !! id_of r) as [row|]; [|done].
    destruct (json_Decode_comment lib (Body r)); [|done].
    cbn [response_of table_of events_of fst snd].
    case_decide; [|done].
    split; [by rewrite !mails_notify|]. apply failures_logged_notify. by right.
Qed.

Example approve_with_smtp_down :
  serve (approveEntry example_config (example_env_smtp_down 2000) (request_for "6162" ""))
        {["6162" := alice_row]}
  = (no_content, {["6162" := set_approved 1 alice_row]},
     [mail example_config "alice@example.com" mailEntryApprovedSubject
           (mailEntryApprovedBody "https://example.org/guestbook");
      log_Printf "Failed to send email to author: dial tcp: connection refused"]).
Proof. vm_compute. reflexivity. Qed.

Example submit_with_smtp_down :
  response_of (serve (createEntry (example_lib alice) example_config
                        (example_env_smtp_down 1000) (request_for "" "")) ∅)
  = created.
Proof. vm_compute. reflexivity. Qed.

(** * Further properties of the handlers *)

(** ** [getEntry] *)

(** [getEntry] reads and never writes: the table is as before and nothing
    is sent or logged.  Without a row under the id the answer is 404
    [Entry not found].  With one it is 200 with a JSON object that
    carries the id asked for and the name, address, message, state,
    comment and time of the row, and that has no [ip] member although
    the query selects every column. *)
Theorem getEntry_read_only_full_entry (r : Request) (t : Table) :
  table_of (serve (getEntry r) t) = t
  ∧ events_of (serve (getEntry r) t) = []
  ∧ match t !! id_of r with
    | None =>
        response_of (serve (getEntry r) t)
        = error_response StatusNotFound "Entry not found"
    | Some row =>
        ∃ members,
          response_of (serve (getEntry r) t)
            = mkResponse StatusOK json_headers [Json (JObject members)]
          ∧ fst <$> members
            = ["id"; "name"; "email"; "message"; "approved"; "comment"; "created_at"; "code"]
          ∧ ("id", JString (id_of r)) ∈ members
          ∧ ("name", JString (col_name row)) ∈ members
          ∧ ("email", JString (col_email row)) ∈ members
          ∧ ("message", JString (col_message row)) ∈ members
          ∧ ("approved", JInt (col_approved row)) ∈ members
          ∧ ("comment", JString (col_comment row)) ∈ members
          ∧ ("created_at", JTime (col_created_at row)) ∈ members
    end.
Proof.
  rewrite getEntry_run. destruct (t !! id_of r) as [row|]; [|done].
  cbn [table_of events_of response_of fst snd].
  split; [done|]. split; [done|].
  eexists. split; [reflexivity|]. cbn.
  split; [done|]. repeat split; repeat (first [by left | right]).
Qed.

(** ** Accepted submissions *)

(** What it takes for [createEntry] to store a submission. *)
Definition accepted (lib : Lib) (config : Configuration) (env : Env) (r : Request)
    (t : Table) (entry : Entry) (ip id : string) : Prop :=
  json_Decode_Entry lib (Body r) = inl entry
  ∧ Code entry = AntiSpamCode config
  ∧ ¬ invalid_fields entry
  ∧ originating_address lib r = inl ip
  ∧ (∀ id' row, t !! id' = Some row -> col_ip row = ip ->
       EntryWaitDuration config <= time_Since env (col_created_at row))
  ∧ generateID lib env = inl id
  ∧ t !! id = None.

Lemma rate_limited_false (config : Configuration) (env : Env) (ip : string) (t : Table) :
  rate_limited config env ip t = false ↔
  ∀ id row, t !! id = Some row -> col_ip row = ip ->
    EntryWaitDuration config <= time_Since env (col_created_at row).
Proof.
  unfold rate_limited.
  destruct (last_created_at ip t) as [last|] eqn:Hlast.
  - apply last_created_at_Some in Hlast as (id & row & Hrow & Hip & <- & Hmax).
    rewrite bool_decide_eq_false. split.
    + intros Hge id' row' Hrow' Hip'.
      pose proof (time_Sub_antitone (time_Now env) _ _ (Hmax id' row' Hrow' Hip')).
      unfold time_Since in *. lia.
    + intros Hall. pose proof (Hall id row Hrow Hip). lia.
  - split; [|done]. intros _ id row Hrow Hip. exfalso.
    by apply (last_created_at_None ip t Hlast id row).
Qed.

Lemma createEntry_accepted_run (lib : Lib) (config : Configuration) (env : Env)
    (r : Request) (t : Table) (entry : Entry) (ip id : string) :
  accepted lib config env r t entry ip id ->
  serve (createEntry lib config env r) t
  = (created,
     <[id := mkRow (Name entry) (Email entry) (Message entry) ip 0 ""
                   (CURRENT_TIMESTAMP env)]> t,
     log_Printf ("New entry: " +:+ URL config +:+ "?GgbEntryID=" +:+ id) ::
     notify config env (AdminEmail config) mailAdminEntryAddedSubject
       (mailAdminEntryAddedBody (URL config +:+ "?GgbEntryID=" +:+ id))
       "Failed to send email to admin: ").
Proof.
  intros (Hentry & Hcode & Hvalid & Hip & Hwait & Hid & Hfree).
  rewrite createEntry_run. unfold createEntry_outcome. rewrite Hentry.
  rewrite decide_False by (intros Hne; by apply Hne).
  apply validateEntry_None in Hvalid as ->. rewrite Hip.
  apply rate_limited_false in Hwait as ->. by rewrite Hid, Hfree.
Qed.

Lemma createEntry_created_accepted (lib : Lib) (config : Configuration) (env : Env)
    (r : Request) (t : Table) :
  status (response_of (serve (createEntry lib config env r) t)) = StatusCreated ->
  ∃ entry ip id, accepted lib config env r t entry ip id.
Proof.
  rewrite createEntry_run. unfold createEntry_outcome, accepted.
  destruct (json_Decode_Entry lib (Body r)) as [entry|]; [|discriminate].
  destruct (decide (Code entry ≠ AntiSpamCode config)) as [|Hcode]; [discriminate|].
  pose proof (validateEntry_spec entry) as Hvalid.
  destruct (validateEntry entry); [discriminate|].
  destruct (originating_address lib r) as [ip|]; [|discriminate].
  destruct (rate_limited config env ip t) eqn:Hlimit; [discriminate|].
  destruct (generateID lib env) as [id|]; [|discriminate].
  destruct (t !! id) eqn:Hfree; [discriminate|].
  intros _. exists entry, ip, id.
  repeat split; try done.
  - by destruct (decide (Code entry = AntiSpamCode config)).
  - by apply rate_limited_false.
Qed.

(** Submit, when it stores.  A submission is answered 201 exactly when
    its body decodes, its code is the configured one, its fields are valid,
    its address resolves, every stored submission from that address is at
    least [EntryWaitDuration] old, and an id is generated that no row has.
    Then the answer is the fixed body [{success: true}], which does not
    contain the id; the table gains one row under the new id with the
    name, address and message submitted, the address of origin, the clock
    of the database as [created_at], [approved = 0] and an empty comment,
    whatever id, state, comment or time the client put in its JSON; and
    one mail goes to the administrator.  In every other case the table is
    as before and nothing is sent or logged. *)
Theorem createEntry_stores_iff_accepted (lib : Lib) (config : Configuration) (env : Env)
    (r : Request) (t : Table) :
  (status (response_of (serve (createEntry lib config env r) t)) = StatusCreated
   ↔ ∃ entry ip id, accepted lib config env r t entry ip id)
  ∧ (∀ entry ip id, accepted lib config env r t entry ip id ->
       response_of (serve (createEntry lib config env r) t) = created
       ∧ table_of (serve (createEntry lib config env r) t)
         = <[id := mkRow (Name entry) (Email entry) (Message entry) ip 0 ""
                         (CURRENT_TIMESTAMP env)]> t
       ∧ mails (events_of (serve (createEntry lib config env r) t))
         = [mail config (AdminEmail config) mailAdminEntryAddedSubject
                 (mailAdminEntryAddedBody (URL config +:+ "?GgbEntryID=" +:+ id))])
  ∧ (status (response_of (serve (createEntry lib config env r) t)) = StatusCreated
     ∨ (table_of (serve (createEntry lib config env r) t) = t
        ∧ events_of (serve (createEntry lib config env r) t) = [])).
Proof.
  split; [|split].
  - split; [apply createEntry_created_accepted|].
    intros (entry & ip & id & Hacc).
    by rewrite (createEntry_accepted_run _ _ _ _ _ _ _ _ Hacc).
  - intros entry ip id Hacc.
    rewrite (createEntry_accepted_run _ _ _ _ _ _ _ _ Hacc).
    cbn [response_of table_of events_of fst snd]. split; [done|]. split; [done|].
    unfold mails. cbn [List.filter is_mail].
    apply (mails_notify config env).
  - rewrite createEntry_run. unfold createEntry_outcome.
    destruct (json_Decode_Entry lib (Body r)) as [entry|]; [|by right].
    destruct (decide (Code entry ≠ AntiSpamCode config)); [by right|].
    destruct (validateEntry entry); [by right|].
    destruct (originating_address lib r) as [ip|]; [|by right].
    destruct (rate_limited config env ip t); [by right|].
    destruct (generateID lib env) as [id|]; [|by right].
    destruct (t !! id); [by right|by left].
Qed.

(** A client that tries to choose its id, to approve itself and to bring a
    comment along. *)
Definition eve : Entry :=
  mkEntry "chosen-by-the-client" "Eve Adversary" "eve@example.net"
          "Please publish this right away." 1 "Approved by the webmaster"
          "203.0.113.9" 0 "4711".

Example submit_eve :
  serve (createEntry (example_lib eve) example_config (example_env 5000)
           (request_for "" "")) {["6162" := alice_row]}
  = (tagged_response StatusTooManyRequests "postlimit", {["6162" := alice_row]}, []).
Proof. vm_compute. reflexivity. Qed.

Example submit_eve_later :
  table_of (serve (createEntry (example_lib eve) example_config
                     (example_env (1000 + 60 * 1000000000)) (request_for "" "")) ∅)
  = {["6162" := mkRow "Eve Adversary" "eve@example.net" "Please publish this right away."
                      "192.0.2.7" 0 "" (1000 + 60 * 1000000000)]}.
Proof. vm_compute. reflexivity. Qed.

Lemma accepted_eve :
  accepted (example_lib eve) example_config (example_env 5000) (request_for "" "") ∅
           eve "192.0.2.7" "6162".
Proof.
  unfold accepted. repeat split.
  - apply validateEntry_None. vm_compute. reflexivity.
  - intros id' row Hrow. by rewrite lookup_empty in Hrow.
Qed.

Lemma createEntry_stores_iff_accepted_witness :
  accepted (example_lib eve) example_config (example_env 5000) (request_for "" "") ∅
           eve "192.0.2.7" "6162"
  ∧ table_of (serve (createEntry (example_lib eve) example_config (example_env 5000)
                       (request_for "" "")) ∅)
    = <[ "6162" := mkRow "Eve Adversary" "eve@example.net" "Please publish this right away."
                         "192.0.2.7" 0 "" 5000 ]> ∅.
Proof.
  split; [exact accepted_eve|].
  destruct (createEntry_stores_iff_accepted (example_lib eve) example_config
              (example_env 5000) (request_for "" "") ∅) as (_ & Hstored & _).
  destruct (Hstored eve "192.0.2.7" "6162" accepted_eve) as (_ & Htable & _).
  exact Htable.
Defined.

(** Two submissions from one address.  When a submission has been stored
    and a second valid one arrives from the same address while the time
    since the [created_at] of the first is below [EntryWaitDuration], the
    second is answered 429 [postlimit] and changes nothing; the table
    still holds no row but those it held after the first. *)
Theorem createEntry_twice_within_wait (lib : Lib) (config : Configuration)
    (env env' : Env) (r r' : Request) (t : Table) (entry entry' : Entry) (ip id : string) :
  accepted lib config env r t entry ip id ->
  json_Decode_Entry lib (Body r') = inl entry' ->
  Code entry' = AntiSpamCode config ->
  ¬ invalid_fields entry' ->
  originating_address lib r' = inl ip ->
  time_Since env' (CURRENT_TIMESTAMP env) < EntryWaitDuration config ->
  serve (createEntry lib config env' r') (table_of (serve (createEntry lib config env r) t))
  = (tagged_response StatusTooManyRequests "postlimit",
     table_of (serve (createEntry lib config env r) t), []).
Proof.
  intros Hacc Hentry' Hcode' Hvalid' Hip' Hsoon.
  rewrite (createEntry_accepted_run _ _ _ _ _ _ _ _ Hacc). cbn [table_of fst snd].
  eapply createEntry_second_within_wait; eauto.
  - apply lookup_insert_eq.
  - reflexivity.
  - exact Hsoon.
Qed.

Lemma createEntry_twice_within_wait_witness :
  response_of
    (serve (createEntry (example_lib eve) example_config (example_env 9000) (request_for "" ""))
       (table_of (serve (createEntry (example_lib eve) example_config (example_env 5000)
                           (request_for "" "")) ∅)))
  = tagged_response StatusTooManyRequests "postlimit".
Proof.
  rewrite (createEntry_twice_within_wait (example_lib eve) example_config
             (example_env 5000) (example_env 9000) (request_for "" "") (request_for "" "")
             ∅ eve eve "192.0.2.7" "6162").
  - reflexivity.
  - exact accepted_eve.
  - reflexivity.
  - reflexivity.
  - apply validateEntry_None. vm_compute. reflexivity.
  - vm_compute. reflexivity.
  - vm_compute. reflexivity.
Defined.

(** ** The headers of the answers of [createEntry] *)

(** [createEntry] sets [Content-Type: application/json] only after the
    status line is out, so the client never receives it.  The answers that
    carry an error, those with the JSON tags [code], [validation] and
    [postlimit] included, go out as [text/plain; charset=utf-8], their JSON
    after the line break that [http.Error] writes; the 201 goes out with no
    header set by the handler. *)
Theorem createEntry_content_type (lib : Lib) (config : Configuration) (env : Env)
    (r : Request) (t : Table) :
  header (response_of (serve (createEntry lib config env r) t)) !! "Content-Type"
  = (if decide (status (response_of (serve (createEntry lib config env r) t)) = StatusCreated)
     then None else Some "text/plain; charset=utf-8")
  ∧ (status (response_of (serve (createEntry lib config env r) t)) = StatusCreated
     ∨ ∃ msg rest,
         body (response_of (serve (createEntry lib config env r) t))
         = Text (msg +:+ LF) :: rest).
Proof.
  assert (Herr : error_headers !! "Content-Type" = Some "text/plain; charset=utf-8")
    by (vm_compute; reflexivity).
  rewrite createEntry_run. unfold createEntry_outcome.
  destruct (json_Decode_Entry lib (Body r)) as [entry|];
    [|cbn; rewrite Herr; split; [done|right; eauto]].
  destruct (decide (Code entry ≠ AntiSpamCode config));
    [cbn; rewrite Herr; split; [done|right; eauto]|].
  destruct (validateEntry entry);
    [cbn; rewrite Herr; split; [done|right; eauto]|].
  destruct (originating_address lib r) as [ip|];
    [|cbn; rewrite Herr; split; [done|right; eauto]].
  destruct (rate_limited config env ip t);
    [cbn; rewrite Herr; split; [done|right; eauto]|].
  destruct (generateID lib env) as [id|];
    [|cbn; rewrite Herr; split; [done|right; eauto]].
  destruct (t !! id); [cbn; rewrite Herr; split; [done|right; eauto]|].
  cbn. split; [apply lookup_empty|by left].
Qed.

(** ** Rows are kept *)

(** The columns no handler writes after the INSERT. *)
Definition submitted_columns (row : Row) : string * string * string * string * Z :=
  (col_name row, col_email row, col_message row, col_ip row, col_created_at row).

(** What a route other than the submission does to the row it names. *)
Definition update_of (lib : Lib) (route : Route) (r : Request) (row : Row) : Row :=
  match route with
  | POST_approve => set_approved 1 row
  | POST_reject => set_approved (-1) row
  | PUT_comment =>
      match json_Decode_comment lib (Body r) with
      | inl text => set_comment text row
      | inr _ => row
      end
  | _ => row
  end.

#[export] Instance Route_eq_dec : EqDecision Route.
Proof. solve_decision. Defined.

Lemma router_table (lib : Lib) (config : Configuration) (env : Env)
    (route : Route) (r : Request) (t : Table) :
  route ≠ POST_entries ->
  table_of (serve (router lib config env route r) t)
  = match t !! id_of r with
    | Some row => <[id_of r := update_of lib route r row]> t
    | None => t
    end.
Proof.
  intros Hroute. destruct route; cbn [router update_of]; try done.
  - rewrite getApprovedEntries_run. cbn [table_of fst snd].
    destruct (t !! id_of r) eqn:Hrow; [by rewrite insert_id|done].
  - rewrite getEntry_run.
    destruct (t !! id_of r) eqn:Hrow; [by rewrite insert_id|done].
  - rewrite approveEntry_run. by destruct (t !! id_of r).
  - rewrite rejectEntry_run. by destruct (t !! id_of r).
  - rewrite addComment_run. destruct (t !! id_of r) eqn:Hrow; [|done].
    destruct (json_Decode_comment lib (Body r)); [done|]. by rewrite insert_id.
Qed.

Lemma update_of_submitted_columns (lib : Lib) (route : Route) (r : Request) (row : Row) :
  submitted_columns (update_of lib route r row) = submitted_columns row.
Proof.
  destruct route; cbn [update_of]; try done.
  by destruct (json_Decode_comment lib (Body r)).
Qed.

Lemma serve_keeps_row (lib : Lib) (config : Configuration) (env : Env)
    (route : Route) (r : Request) (t : Table) (id : string) (row : Row) :
  t !! id = Some row ->
  ∃ row', table_of (serve (router lib config env route r) t) !! id = Some row'
          ∧ submitted_columns row' = submitted_columns row
          ∧ (col_approved row = col_approved row' ∨ col_approved row' = 1
             ∨ col_approved row' = -1).
Proof.
  intros Hrow. destruct (decide (route = POST_entries)) as [->|Hroute].
  - cbn [router].
    destruct (createEntry_table lib config env r t) as [->|(id' & row' & Hfree & _ & _ & ->)].
    + eauto.
    + exists row. rewrite lookup_insert_ne by congruence. auto.
  - rewrite router_table by done.
    destruct (t !! id_of r) as [row0|] eqn:Hrow0; [|eauto].
    destruct (decide (id_of r = id)) as [<-|Hne].
    + rewrite lookup_insert_eq. eexists. split; [done|].
      assert (row0 = row) as -> by congruence.
      split; [apply update_of_submitted_columns|].
      destruct route; cbn; auto.
      destruct (json_Decode_comment lib (Body r)); auto.
    + rewrite lookup_insert_ne by done. eauto.
Qed.

(** No request deletes a row or rewrites what was submitted: whatever the
    route, the request and the surroundings, a row of the table is still
    there afterwards, under the same id, with the same name, address,
    message, address of origin and [created_at]. *)
Theorem rows_are_never_deleted (lib : Lib) (config : Configuration) (env : Env)
    (route : Route) (r : Request) (t : Table) (id : string) (row : Row) :
  t !! id = Some row ->
  ∃ row', table_of (serve (router lib config env route r) t) !! id = Some row'
          ∧ col_name row' = col_name row
          ∧ col_email row' = col_email row
          ∧ col_message row' = col_message row
          ∧ col_ip row' = col_ip row
          ∧ col_created_at row' = col_created_at row.
Proof.
  intros Hrow.
  destruct (serve_keeps_row lib config env route r t id row Hrow) as (row' & Hrow' & Hsame & _).
  exists row'. split; [done|].
  unfold submitted_columns in Hsame. by injection Hsame.
Qed.

Lemma rows_are_never_deleted_witness :
  ∃ row', table_of (serve (router (example_lib alice) example_config (example_env 2000)
                             POST_reject (request_for "6162" "")) {["6162" := alice_row]})
          !! "6162" = Some row'
          ∧ col_message row' = "Hello there, this is my message.".
Proof.
  destruct (rows_are_never_deleted (example_lib alice) example_config (example_env 2000)
              POST_reject (request_for "6162" "") {["6162" := alice_row]} "6162" alice_row)
    as (row' & Hrow' & _ & _ & Hmessage & _).
  - vm_compute. reflexivity.
  - exists row'. split; [exact Hrow'|exact Hmessage].
Defined.

(** ** Sequences of requests *)

(** One request as the router receives it, with the surroundings it is
    served in. *)
Definition Call : Type := Env * Route * Request.

Fixpoint serve_all (lib : Lib) (config : Configuration) (calls : list Call) (t : Table) : Table :=
  match calls with
  | [] => t
  | (env, route, r) :: rest =>
      serve_all lib config rest (table_of (serve (router lib config env route r) t))
  end.

Lemma serve_all_decided (lib : Lib) (config : Configuration) (calls : list Call)
    (t : Table) (id : string) (row : Row) :
  t !! id = Some row ->
  col_approved row = 1 ∨ col_approved row = -1 ->
  ∃ row', serve_all lib config calls t !! id = Some row'
          ∧ (col_approved row' = 1 ∨ col_approved row' = -1).
Proof.
  revert t row. induction calls as [|[[env route] r] rest IH]; intros t row Hrow Hdecided.
  - cbn. eauto.
  - cbn [serve_all].
    destruct (serve_keeps_row lib config env route r t id row Hrow)
      as (row' & Hrow' & _ & Happroved).
    apply (IH _ row' Hrow'). destruct Happroved as [<-|[?|?]]; auto.
Qed.

(** A decided entry is never pending again, so its author is never
    notified of an approval again: once [approved] is 1 or -1, after any
    sequence of requests of any kind it is still 1 or -1, and an Approve
    served then sends no mail and logs nothing. *)
Theorem decided_entry_is_never_announced (lib : Lib) (config : Configuration)
    (calls : list Call) (env : Env) (r : Request) (t : Table) (row : Row) :
  t !! id_of r = Some row ->
  col_approved row = 1 ∨ col_approved row = -1 ->
  (∃ row', serve_all lib config calls t !! id_of r = Some row'
           ∧ (col_approved row' = 1 ∨ col_approved row' = -1))
  ∧ events_of (serve (approveEntry config env r) (serve_all lib config calls t)) = [].
Proof.
  intros Hrow Hdecided.
  destruct (serve_all_decided lib config calls t (id_of r) row Hrow Hdecided)
    as (row' & Hrow' & Hdecided').
  split; [eauto|].
  rewrite approveEntry_run, Hrow'. cbn [events_of snd].
  case_decide as Hd; [|done]. destruct Hd as [_ Hd]. lia.
Qed.

Lemma decided_entry_is_never_announced_witness :
  events_of
    (serve (approveEntry example_config (example_env 9000) (request_for "6162" ""))
       (serve_all (example_lib alice) example_config
          [(example_env 3000, PUT_comment, request_for "6162" "Thanks!");
           (example_env 4000, POST_reject, request_for "6162" "");
           (example_env 5000, GET_entry, request_for "6162" "")]
          {["6162" := set_approved 1 alice_row]})) = [].
Proof.
  apply (decided_entry_is_never_announced (example_lib alice) example_config
           [(example_env 3000, PUT_comment, request_for "6162" "Thanks!");
            (example_env 4000, POST_reject, request_for "6162" "");
            (example_env 5000, GET_entry, request_for "6162" "")]
           (example_env 9000) (request_for "6162" "")
           {["6162" := set_approved 1 alice_row]} (set_approved 1 alice_row)).
  - vm_compute. reflexivity.
  - left. reflexivity.
Defined.

(** ** What the table holds *)

(** The rules of [validateEntry], said of a stored row. *)
Definition stored_fields_valid (row : Row) : Prop :=
  (3 <= String.length (col_name row) <= 100)%nat
  ∧ (6 <= String.length (col_email row) <= 100)%nat
  ∧ (10 <= String.length (col_message row) <= 2000)%nat
  ∧ email_shape (col_email row).

Lemma valid_fields_stored (entry : Entry) (ip : string) (approved : Z)
    (comment : string) (now : Z) :
  ¬ invalid_fields entry ->
  stored_fields_valid
    (mkRow (Name entry) (Email entry) (Message entry) ip approved comment now).
Proof.
  intros Hvalid. unfold invalid_fields in Hvalid. unfold stored_fields_valid. cbn.
  repeat split; try lia.
  apply Matches_emailRegex, MatchString_Matches.
  destruct (MatchString emailRegex (Email entry)) eqn:Hmatch; [done|].
  exfalso. apply Hvalid. do 4 right. left.
  intros Hm%MatchString_Matches. congruence.
Qed.

Lemma createEntry_table_valid (lib : Lib) (config : Configuration) (env : Env)
    (r : Request) (t : Table) :
  table_of (serve (createEntry lib config env r) t) = t
  ∨ ∃ id row, t !! id = None ∧ stored_fields_valid row ∧ col_approved row = 0
      ∧ table_of (serve (createEntry lib config env r) t) = <[id := row]> t.
Proof.
  rewrite createEntry_run. unfold createEntry_outcome.
  destruct (json_Decode_Entry lib (Body r)) as [entry|]; [|by left].
  destruct (decide (Code entry ≠ AntiSpamCode config)); [by left|].
  pose proof (validateEntry_spec entry) as Hvalid.
  destruct (validateEntry entry); [by left|].
  destruct (originating_address lib r) as [ip|]; [|by left].
  destruct (rate_limited config env ip t); [by left|].
  destruct (generateID lib env) as [id|]; [|by left].
  destruct (t !! id) eqn:Hid; [by left|].
  right. eexists id, _. split; [exact Hid|].
  split; [by apply valid_fields_stored|]. split; reflexivity.
Qed.

Lemma stored_fields_valid_same (row row' : Row) :
  submitted_columns row' = submitted_columns row ->
  stored_fields_valid row -> stored_fields_valid row'.
Proof.
  unfold submitted_columns, stored_fields_valid.
  intros [= -> -> -> _ _]. done.
Qed.

Definition table_valid (t : Table) : Prop :=
  ∀ id row, t !! id = Some row -> stored_fields_valid row.

Lemma table_valid_serve (lib : Lib) (config : Configuration) (env : Env)
    (route : Route) (r : Request) (t : Table) :
  table_valid t -> table_valid (table_of (serve (router lib config env route r) t)).
Proof.
  intros Ht id row'. destruct (decide (route = POST_entries)) as [->|Hroute].
  - cbn [router].
    destruct (createEntry_table_valid lib config env r t)
      as [->|(id' & new & _ & Hnew & _ & ->)]; [apply Ht|].
    rewrite lookup_insert. case_decide; [by intros [= <-]|apply Ht].
  - rewrite router_table by done.
    destruct (t !! id_of r) as [row|] eqn:Hrow; [|apply Ht].
    rewrite lookup_insert. case_decide; [|apply Ht].
    intros [= <-]. eapply stored_fields_valid_same;
      [apply update_of_submitted_columns|eapply Ht, Hrow].
Qed.

Lemma reachable_table_valid (lib : Lib) (config : Configuration) (t : Table) :
  reachable lib config t -> table_valid t.
Proof.
  induction 1 as [|t env route r _ IH].
  - intros id row. by rewrite lookup_empty.
  - by apply table_valid_serve.
Qed.

(** Every row the program ever stores went through [validateEntry], and
    stays as valid as it was: on a reachable table each row has a name of
    3 to 100 bytes, a message of 10 to 2000 bytes and an address of 6 to
    100 bytes of the shape that [emailRegex] describes, so in particular
    no row has an empty address; and its [approved] is -1, 0 or 1. *)
Theorem stored_rows_are_valid (lib : Lib) (config : Configuration)
    (t : Table) (id : string) (row : Row) :
  reachable lib config t ->
  t !! id = Some row ->
  stored_fields_valid row
  ∧ col_email row ≠ ""
  ∧ (col_approved row = -1 ∨ col_approved row = 0 ∨ col_approved row = 1).
Proof.
  intros Hreach Hrow.
  pose proof (reachable_table_valid lib config t Hreach id row Hrow) as Hvalid.
  split; [exact Hvalid|]. split.
  - destruct Hvalid as (_ & [Hlen _] & _). intros Hempty. rewrite Hempty in Hlen.
    cbn in Hlen. lia.
  - eapply reachable_approved_domain; eauto.
Qed.

Lemma stored_rows_are_valid_witness :
  col_email (set_approved 1 alice_row) ≠ "".
Proof.
  assert (Hreach : reachable (example_lib alice) example_config alice_approved).
  { unfold alice_approved. do 2 apply reachable_serve. apply reachable_empty. }
  assert (Hrow : alice_approved !! "6162" = Some (set_approved 1 alice_row))
    by (vm_compute; reflexivity).
  destruct (stored_rows_are_valid (example_lib alice) example_config alice_approved
              "6162" (set_approved 1 alice_row) Hreach Hrow) as (_ & Hemail & _).
  exact Hemail.
Defined.

(** ** How the moderation operations compose *)

(** On one entry the last write wins and the two columns do not meet.
    A Reject after an Approve leaves the table that the Reject alone
    leaves, and an Approve after a Reject the table of the Approve alone;
    an Approve repeated leaves the table of one Approve; of two Comments
    the second text stays; and an Approve and a Comment leave the same
    table in either order. *)
Theorem moderation_last_write_wins (lib : Lib) (config : Configuration)
    (env env' : Env) (r r' : Request) (t : Table) (row : Row) (text text' : string) :
  t !! id_of r = Some row ->
  id_of r' = id_of r ->
  json_Decode_comment lib (Body r) = inl text ->
  json_Decode_comment lib (Body r') = inl text' ->
  table_of (serve (rejectEntry r') (table_of (serve (approveEntry config env r) t)))
    = table_of (serve (rejectEntry r') t)
  ∧ table_of (serve (approveEntry config env' r') (table_of (serve (rejectEntry r) t)))
    = table_of (serve (approveEntry config env' r') t)
  ∧ table_of (serve (approveEntry config env' r')
                    (table_of (serve (approveEntry config env r) t)))
    = table_of (serve (approveEntry config env r) t)
  ∧ table_of (serve (addComment lib config env' r')
                    (table_of (serve (addComment lib config env r) t)))
    = table_of (serve (addComment lib config env' r') t)
  ∧ table_of (serve (addComment lib config env' r')
                    (table_of (serve (approveEntry config env r) t)))
    = table_of (serve (approveEntry config env r)
                      (table_of (serve (addComment lib config env' r') t))).
Proof.
  intros Hrow Hid Htext Htext'.
  assert (Hrow' : t !! id_of r' = Some row) by (by rewrite Hid).
  rewrite (approveEntry_run config env r t), (rejectEntry_run r t),
    (addComment_run lib config env r t), (addComment_run lib config env' r' t),
    (rejectEntry_run r' t), (approveEntry_run config env' r' t),
    Hrow, Hrow', Htext, Htext'.
  cbn [table_of fst snd].
  rewrite !rejectEntry_run, !approveEntry_run, !addComment_run, Htext'.
  rewrite Hid, !lookup_insert_eq. cbn [table_of fst snd].
  rewrite !insert_insert_eq. done.
Qed.

Lemma moderation_last_write_wins_witness :
  table_of (serve (rejectEntry (request_for "6162" "No."))
              (table_of (serve (approveEntry example_config (example_env 2000)
                                  (request_for "6162" "Thanks!"))
                               {["6162" := alice_row]})))
  = table_of (serve (rejectEntry (request_for "6162" "No.")) {["6162" := alice_row]}).
Proof.
  destruct (moderation_last_write_wins (example_lib alice) example_config
              (example_env 2000) (example_env 3000)
              (request_for "6162" "Thanks!") (request_for "6162" "No.")
              {["6162" := alice_row]} alice_row "Thanks!" "No.") as [Hreject _].
  - vm_compute. reflexivity.
  - reflexivity.
  - reflexivity.
  - reflexivity.
  - exact Hreject.
Defined.

(** Requests about different entries do not meet: two requests on any of
    the routes that name an entry, with different ids, leave the same
    table in either order. *)
Theorem requests_on_different_ids_commute (lib : Lib) (config : Configuration)
    (env1 env2 : Env) (route1 route2 : Route) (r1 r2 : Request) (t : Table) :
  route1 ≠ POST_entries ->
  route2 ≠ POST_entries ->
  id_of r1 ≠ id_of r2 ->
  table_of (serve (router lib config env1 route1 r1)
                  (table_of (serve (router lib config env2 route2 r2) t)))
  = table_of (serve (router lib config env2 route2 r2)
                    (table_of (serve (router lib config env1 route1 r1) t))).
Proof.
  intros Hroute1 Hroute2 Hne.
  rewrite !router_table by done.
  destruct (t !! id_of r1) as [row1|] eqn:Hrow1;
    destruct (t !! id_of r2) as [row2|] eqn:Hrow2;
    rewrite ?lookup_insert_ne, ?Hrow1, ?Hrow2 by done; try done.
  by apply insert_insert_ne.
Qed.

Lemma requests_on_different_ids_commute_witness :
  table_of (serve (router (example_lib alice) example_config (example_env 2000)
                          POST_approve (request_for "6162" ""))
              (table_of (serve (router (example_lib alice) example_config (example_env 3000)
                                       PUT_comment (request_for "beef" "Welcome!"))
                               {["6162" := alice_row; "beef" := alice_row]})))
  = table_of (serve (router (example_lib alice) example_config (example_env 3000)
                            PUT_comment (request_for "beef" "Welcome!"))
                (table_of (serve (router (example_lib alice) example_config (example_env 2000)
                                         POST_approve (request_for "6162" ""))
                                 {["6162" := alice_row; "beef" := alice_row]}))).
Proof.
  apply (requests_on_different_ids_commute (example_lib alice) example_config
           (example_env 2000) (example_env 3000) POST_approve PUT_comment
           (request_for "6162" "") (request_for "beef" "Welcome!")
           {["6162" := alice_row; "beef" := alice_row]}).
  - discriminate.
  - discriminate.
  - rewrite !id_of_request_for. discriminate.
Defined.

(** ** The addresses that pass, byte by byte *)

Definition email_char (c : ascii) : bool :=
  class_local c || Ascii.eqb c "@".

Fixpoint count_char (c : ascii) (s : string) : nat :=
  match s with
  | EmptyString => 0
  | String c' rest => (if Ascii.eqb c c' then 1 else 0) + count_char c rest
  end.

Lemma append_cons (c : ascii) (s1 s2 : string) :
  String c s1 +:+ s2 = String c (s1 +:+ s2).
Proof. reflexivity. Qed.

Lemma length_append (s1 s2 : string) :
  String.length (s1 +:+ s2) = (String.length s1 + String.length s2)%nat.
Proof.
  induction s1 as [|c s1 IH]; [done|].
  rewrite append_cons. cbn [String.length]. by rewrite IH.
Qed.

Lemma all_chars_append (p : ascii -> bool) (s1 s2 : string) :
  all_chars p (s1 +:+ s2) = all_chars p s1 && all_chars p s2.
Proof.
  induction s1 as [|c s1 IH]; [done|].
  rewrite append_cons. cbn [all_chars]. by rewrite IH, andb_assoc.
Qed.

Lemma count_char_append (c : ascii) (s1 s2 : string) :
  count_char c (s1 +:+ s2) = (count_char c s1 + count_char c s2)%nat.
Proof.
  induction s1 as [|c' s1 IH]; [done|].
  rewrite append_cons. cbn [count_char]. rewrite IH. lia.
Qed.

Lemma all_chars_impl (p q : ascii -> bool) (s : string) :
  (∀ c, p c = true -> q c = true) -> all_chars p s = true -> all_chars q s = true.
Proof.
  intros Hpq. induction s as [|c s IH]; cbn; [done|].
  intros [Hc Hs]%andb_true_iff. apply andb_true_iff. auto.
Qed.

Lemma count_char_outside (p : ascii -> bool) (c : ascii) (s : string) :
  p c = false -> all_chars p s = true -> count_char c s = 0%nat.
Proof.
  intros Hc. induction s as [|c' s IH]; cbn; [done|].
  intros [Hc' Hs]%andb_true_iff. rewrite (IH Hs).
  destruct (Ascii.eqb_spec c c') as [->|_]; [congruence|done].
Qed.

Lemma nonempty_length (s : string) : s ≠ "" -> (1 <= String.length s)%nat.
Proof. destruct s; [done|cbn; lia]. Qed.

Lemma class_letter_local (c : ascii) : class_letter c = true -> class_local c = true.
Proof. unfold class_local. by intros ->. Qed.

Lemma class_domain_local (c : ascii) : class_domain c = true -> class_local c = true.
Proof.
  unfold class_domain, class_local, one_of. cbn [list_ascii_of_string existsb].
  destruct (class_letter c), (in_range "0" "9" c), (Ascii.eqb c "."), (Ascii.eqb c "-"),
    (Ascii.eqb c "_"), (Ascii.eqb c "%"), (Ascii.eqb c "+"); done.
Qed.

Lemma email_char_printable (c : ascii) :
  email_char c = true ->
  (33 <=? nat_of_ascii c)%nat && (nat_of_ascii c <=? 126)%nat = true.
Proof.
  destruct c as [[|] [|] [|] [|] [|] [|] [|] [|]]; vm_compute; intros H;
    first [reflexivity | discriminate H].
Qed.

(** An address that [isValidEmail] accepts has at least six bytes, so the
    lower bound of [validateEntry] on the address never decides alone; it
    holds exactly one at sign; and each of its bytes is that sign or one of
    the bytes of the first class of the expression: letters, digits,
    dot, underscore, percent, plus and hyphen.  No blank, no line break
    and no byte above 126 passes. *)
Theorem isValidEmail_bytes (email : string) :
  isValidEmail email = true ->
  (6 <= String.length email)%nat
  ∧ count_char "@" email = 1%nat
  ∧ all_chars email_char email = true
  ∧ all_chars (fun c => (33 <=? nat_of_ascii c)%nat && (nat_of_ascii c <=? 126)%nat) email
    = true.
Proof.
  intros Hvalid. apply MatchString_Matches, Matches_emailRegex in Hvalid
    as (local & domain & tld & -> & Hl & Hlocal & Hd & Hdomain & Htld & Hletters).
  assert (Hdomain' : all_chars class_local domain = true)
    by (eapply all_chars_impl; [apply class_domain_local|done]).
  assert (Hletters' : all_chars class_local tld = true)
    by (eapply all_chars_impl; [apply class_letter_local|done]).
  assert (Hat : class_local "@" = false) by reflexivity.
  assert (Hchars : all_chars email_char (local +:+ "@" +:+ domain +:+ "." +:+ tld) = true).
  { assert (Hweak : ∀ s, all_chars class_local s = true -> all_chars email_char s = true).
    { intros s. apply all_chars_impl. intros c Hc. unfold email_char. by rewrite Hc. }
    rewrite !all_chars_append.
    rewrite (Hweak local), (Hweak domain), (Hweak tld) by done. reflexivity. }
  split; [|split; [|split]].
  - apply nonempty_length in Hl, Hd. rewrite !length_append. cbn [String.length]. lia.
  - rewrite !count_char_append.
    rewrite (count_char_outside class_local "@" local),
      (count_char_outside class_local "@" domain),
      (count_char_outside class_local "@" tld) by done.
    reflexivity.
  - exact Hchars.
  - revert Hchars. apply all_chars_impl, email_char_printable.
Qed.

Lemma isValidEmail_bytes_witness :
  isValidEmail "alice@example.com" = true
  ∧ count_char "@" "alice@example.com" = 1%nat.
Proof.
  assert (H : isValidEmail "alice@example.com" = true) by reflexivity.
  split; [exact H|].
  destruct (isValidEmail_bytes "alice@example.com" H) as (_ & Hcount & _).
  exact Hcount.
Defined.

(** ** How the public listing changes *)

(** The listing entry of a row when the row is approved, nothing when it
    is not. *)
Definition listed (id : string) (row : Row) : list Entry :=
  if decide (col_approved row = 1) then [scan_listing (id, row)] else [].

Lemma SELECT_approved_insert_fresh (t : Table) (id : string) (row : Row) :
  t !! id = None ->
  SELECT_approved (<[id := row]> t) ≡ₚ listed id row ++ SELECT_approved t.
Proof.
  intros Hfree. rewrite !SELECT_approved_Permutation.
  rewrite (map_to_list_insert t id row Hfree), filter_cons. unfold listed. cbn [snd].
  destruct (decide (col_approved row = 1)); reflexivity.
Qed.

Lemma SELECT_approved_insert (t : Table) (id : string) (row : Row) :
  SELECT_approved (<[id := row]> t) ≡ₚ listed id row ++ SELECT_approved (delete id t).
Proof.
  rewrite <- (insert_delete_eq t id row).
  apply SELECT_approved_insert_fresh, lookup_delete_eq.
Qed.

Lemma SELECT_approved_delete (t : Table) (id : string) (row : Row) :
  t !! id = Some row ->
  SELECT_approved t ≡ₚ listed id row ++ SELECT_approved (delete id t).
Proof.
  intros Hrow. rewrite <- (insert_id t id row Hrow) at 1. apply SELECT_approved_insert.
Qed.

(** A submission is listed once it is approved, not before.  After an
    accepted Submit the listing holds the entries it held; after the
    Approve of the new id it holds one more, with the name and the message
    submitted, [approved = 1], no comment and the [created_at] of the
    INSERT. *)
Theorem submission_is_listed_once_approved (lib : Lib) (config : Configuration)
    (env env' : Env) (r r' : Request) (t : Table) (entry : Entry) (ip id : string) :
  accepted lib config env r t entry ip id ->
  id_of r' = id ->
  SELECT_approved (table_of (serve (createEntry lib config env r) t))
    ≡ₚ SELECT_approved t
  ∧ SELECT_approved
      (table_of (serve (approveEntry config env' r')
                       (table_of (serve (createEntry lib config env r) t))))
    ≡ₚ mkEntry "" (Name entry) "" (Message entry) 1 "" "" (CURRENT_TIMESTAMP env) ""
       :: SELECT_approved t.
Proof.
  intros Hacc Hid.
  rewrite (createEntry_accepted_run _ _ _ _ _ _ _ _ Hacc). cbn [table_of fst snd].
  destruct Hacc as (_ & _ & _ & _ & _ & _ & Hfree).
  split.
  - by rewrite SELECT_approved_insert_fresh.
  - rewrite approveEntry_run, Hid, lookup_insert_eq. cbn [table_of fst snd].
    rewrite insert_insert_eq. by rewrite SELECT_approved_insert_fresh.
Qed.

Lemma submission_is_listed_once_approved_witness :
  SELECT_approved
    (table_of (serve (createEntry (example_lib eve) example_config (example_env 5000)
                        (request_for "" "")) ∅))
  ≡ₚ SELECT_approved ∅.
Proof.
  destruct (submission_is_listed_once_approved (example_lib eve) example_config
              (example_env 5000) (example_env 6000) (request_for "" "")
              (request_for "6162" "") ∅ eve "192.0.2.7" "6162" accepted_eve)
    as [Hpending _].
  - apply id_of_request_for.
  - exact Hpending.
Defined.

(** What moderation does to the listing of a stored entry.  Apart from
    the entries of the other rows, which stay: after an Approve the
    listing holds the entry of the row with [approved = 1]; after a Reject
    it holds nothing of the row; after a Comment it holds the entry of the
    row with the new comment if the row is approved, and nothing of it
    otherwise. *)
Theorem listing_after_moderation (lib : Lib) (config : Configuration) (env : Env)
    (r : Request) (t : Table) (row : Row) (text : string) :
  t !! id_of r = Some row ->
  json_Decode_comment lib (Body r) = inl text ->
  SELECT_approved t
    ≡ₚ listed (id_of r) row ++ SELECT_approved (delete (id_of r) t)
  ∧ SELECT_approved (table_of (serve (approveEntry config env r) t))
    ≡ₚ scan_listing (id_of r, set_approved 1 row) :: SELECT_approved (delete (id_of r) t)
  ∧ SELECT_approved (table_of (serve (rejectEntry r) t))
    ≡ₚ SELECT_approved (delete (id_of r) t)
  ∧ SELECT_approved (table_of (serve (addComment lib config env r) t))
    ≡ₚ listed (id_of r) (set_comment text row) ++ SELECT_approved (delete (id_of r) t).
Proof.
  intros Hrow Htext.
  rewrite approveEntry_run, rejectEntry_run, addComment_run, Hrow, Htext.
  cbn [table_of fst snd].
  split; [by apply SELECT_approved_delete|].
  split; [|split]; by rewrite SELECT_approved_insert.
Qed.

Lemma listing_after_moderation_witness :
  SELECT_approved
    (table_of (serve (rejectEntry (request_for "6162" "")) alice_approved))
  ≡ₚ SELECT_approved (delete (id_of (request_for "6162" "")) alice_approved).
Proof.
  destruct (listing_after_moderation (example_lib alice) example_config (example_env 4000)
              (request_for "6162" "") alice_approved (set_approved 1 alice_row) "")
    as (_ & _ & Hreject & _).
  - vm_compute. reflexivity.
  - reflexivity.
  - exact Hreject.
Defined.

Example listing_after_reject_is_empty :
  SELECT_approved (table_of (serve (rejectEntry (request_for "6162" "")) alice_approved)) = [].
Proof. vm_compute. reflexivity. Qed.

(** ** The ids of [generateID] *)

Definition is_lower_hex (c : ascii) : bool :=
  in_range "0" "9" c || in_range "a" "f" c.

(** The value of a hexadecimal digit, to read an id back. *)
Definition hex_value (c : ascii) : nat :=
  if in_range "0" "9" c then nat_of_ascii c - 48
  else nat_of_ascii c - 87.

Fixpoint hex_decode (s : string) : string :=
  match s with
  | String hi (String lo rest) =>
      String (ascii_of_nat (16 * hex_value hi + hex_value lo)) (hex_decode rest)
  | _ => EmptyString
  end.

Lemma hexdigit_lower_hex (n : nat) : is_lower_hex (hexdigit n) = true.
Proof. do 16 (destruct n as [|n]; [reflexivity|]). reflexivity. Qed.

Lemma hex_byte_round_trip (b : ascii) :
  ascii_of_nat (16 * hex_value (hexdigit (nat_of_ascii b / 16))
                + hex_value (hexdigit (nat_of_ascii b mod 16))) = b.
Proof. destruct b as [[|] [|] [|] [|] [|] [|] [|] [|]]; vm_compute; reflexivity. Qed.

Lemma hex_decode_encode (src : string) : hex_decode (hex_EncodeToString src) = src.
Proof.
  induction src as [|b src IH]; [done|].
  cbn [hex_EncodeToString hex_decode]. by rewrite hex_byte_round_trip, IH.
Qed.

Lemma hex_EncodeToString_length (src : string) :
  String.length (hex_EncodeToString src) = (2 * String.length src)%nat.
Proof. induction src as [|b src IH]; cbn; [done|]. rewrite IH. lia. Qed.

Lemma hex_EncodeToString_lower_hex (src : string) :
  all_chars is_lower_hex (hex_EncodeToString src) = true.
Proof.
  induction src as [|b src IH]; [done|].
  cbn [hex_EncodeToString all_chars]. by rewrite !hexdigit_lower_hex, IH.
Qed.

(** [generateID] fails exactly when the random source fails, with its
    error.  Otherwise the id spells the hash of the 32 random bytes in
    lower-case hexadecimal digits, two per byte of the hash and nothing
    else, so it has no slash, question mark or blank that would break the
    moderation link or the route; and the hash can be read back from the
    id, so that two draws get the same id only if their hashes agree. *)
Theorem generateID_spells_the_hash (lib : Lib) (env env' : Env) :
  match generateID lib env with
  | inr err => rand_Read env 32 = inr err
  | inl id =>
      ∃ b, rand_Read env 32 = inl b
        ∧ id = hex_EncodeToString (sha256_Sum256 lib b)
        ∧ String.length id = (2 * String.length (sha256_Sum256 lib b))%nat
        ∧ all_chars is_lower_hex id = true
        ∧ hex_decode id = sha256_Sum256 lib b
        ∧ ∀ b', rand_Read env' 32 = inl b' ->
            generateID lib env' = inl id ->
            sha256_Sum256 lib b' = sha256_Sum256 lib b
  end.
Proof.
  unfold generateID. destruct (rand_Read env 32) as [b|err]; [|done].
  exists b. split; [done|]. split; [done|].
  split; [apply hex_EncodeToString_length|].
  split; [apply hex_EncodeToString_lower_hex|].
  split; [apply hex_decode_encode|].
  intros b' -> [= Heq]. apply (f_equal hex_decode) in Heq.
  by rewrite !hex_decode_encode in Heq.
Qed.

Example generateID_example :
  generateID (example_lib alice) (example_env 1000) = inl "6162".
Proof. reflexivity. Qed.

(** ** Start-up: [loadConfig] and [getEnv] *)

(** [log.Fatal] ends the process; a computation that may do so returns the
    line it logs last instead of a value. *)
Definition Fatal (A : Type) : Type := A + string.

Definition and_then {A B : Type} (m : Fatal A) (k : A -> Fatal B) : Fatal B :=
  match m with
  | inl a => k a
  | inr line => inr line
  end.

(** [getEnv] (main.go:142) on the environment of the process;
    [os.LookupEnv] is the lookup in it. *)
Definition getEnv (environ : gmap string string) (key : string) : Fatal string :=
  let key := "GGB_" +:+ key in
  match environ !! key with
  | Some value => inl value
  | None => inr ("Failed to get env variable " +:+ key)
  end.

Section Startup.

(** [time.ParseDuration], whose code is not in [main.go]. *)
Context (time_ParseDuration : string -> Z + error).

(** [loadConfig] (main.go:125): the configuration that the assignments
    leave in [config], in the order in which they call [getEnv]. *)
Definition loadConfig (environ : gmap string string) : Fatal Configuration :=
  and_then (getEnv environ "DB_FILE") (fun dbFile =>
  and_then (getEnv environ "LISTEN") (fun listen =>
  and_then (getEnv environ "SMTP_HOST") (fun smtpHost =>
  and_then (getEnv environ "SMTP_PORT") (fun smtpPort =>
  and_then (getEnv environ "SMTP_USER") (fun smtpUser =>
  and_then (getEnv environ "SMTP_PASS") (fun smtpPass =>
  and_then (getEnv environ "ADMIN_EMAIL") (fun adminEmail =>
  and_then (getEnv environ "ANTI_SPAM_CODE") (fun antiSpamCode =>
  and_then (getEnv environ "URL") (fun url =>
  and_then (getEnv environ "ENTRY_WAIT_SECONDS") (fun seconds =>
  match time_ParseDuration (seconds +:+ "s") with
  | inr _ => inr "Failed to parse ENTRY_WAIT_SECONDS"
  | inl duration =>
      inl (mkConfiguration dbFile listen smtpHost smtpPort smtpUser smtpPass
                           adminEmail url duration antiSpamCode)
  end)))))))))).

End Startup.

(** The variables [loadConfig] asks for, in its order. *)
Definition required_variables : list string :=
  ["DB_FILE"; "LISTEN"; "SMTP_HOST"; "SMTP_PORT"; "SMTP_USER"; "SMTP_PASS";
   "ADMIN_EMAIL"; "ANTI_SPAM_CODE"; "URL"; "ENTRY_WAIT_SECONDS"].

Lemma getEnv_inl (environ : gmap string string) (key value : string) :
  getEnv environ key = inl value ↔ environ !! ("GGB_" +:+ key) = Some value.
Proof.
  unfold getEnv. destruct (environ !! ("GGB_" +:+ key)); split; congruence.
Qed.

Ltac missing_variable n :=
  left;
  eexists (take n required_variables), _, (drop (S n) required_variables);
  split; [reflexivity|];
  split; [cbn [take required_variables]; repeat constructor; by eexists|];
  split; [eassumption|reflexivity].

(** The process starts exactly when each of the ten variables is set
    under its name with the prefix [GGB_], the empty value being as good
    as any, and the wait with an [s] appended parses as a duration.  The
    configuration then holds the values as they are.  Otherwise the last
    line logged names the first variable, in the order of [loadConfig],
    that is not set, or says that the wait does not parse. *)
Theorem loadConfig_starts_iff (time_ParseDuration : string -> Z + error)
    (environ : gmap string string) :
  match loadConfig time_ParseDuration environ with
  | inl config =>
      environ !! "GGB_DB_FILE" = Some (DBFile config)
      ∧ environ !! "GGB_LISTEN" = Some (Listen config)
      ∧ environ !! "GGB_SMTP_HOST" = Some (SMTPHost config)
      ∧ environ !! "GGB_SMTP_PORT" = Some (SMTPPort config)
      ∧ environ !! "GGB_SMTP_USER" = Some (SMTPUser config)
      ∧ environ !! "GGB_SMTP_PASS" = Some (SMTPPass config)
      ∧ environ !! "GGB_ADMIN_EMAIL" = Some (AdminEmail config)
      ∧ environ !! "GGB_ANTI_SPAM_CODE" = Some (AntiSpamCode config)
      ∧ environ !! "GGB_URL" = Some (URL config)
      ∧ ∃ seconds, environ !! "GGB_ENTRY_WAIT_SECONDS" = Some seconds
          ∧ time_ParseDuration (seconds +:+ "s") = inl (EntryWaitDuration config)
  | inr line =>
      (∃ before key after,
         required_variables = app before (key :: after)
         ∧ Forall (fun k => is_Some (environ !! ("GGB_" +:+ k))) before
         ∧ environ !! ("GGB_" +:+ key) = None
         ∧ line = "Failed to get env variable GGB_" +:+ key)
      ∨ (Forall (fun k => is_Some (environ !! ("GGB_" +:+ k))) required_variables
         ∧ ∃ seconds err, environ !! "GGB_ENTRY_WAIT_SECONDS" = Some seconds
             ∧ time_ParseDuration (seconds +:+ "s") = inr err
             ∧ line = "Failed to parse ENTRY_WAIT_SECONDS")
  end.
Proof.
  unfold loadConfig, required_variables.
  unfold getEnv at 1. change ("GGB_" +:+ "DB_FILE") with "GGB_DB_FILE".
  destruct (environ !! "GGB_DB_FILE") eqn:H0; cbn [and_then];
    [|missing_variable 0%nat].
  unfold getEnv at 1. change ("GGB_" +:+ "LISTEN") with "GGB_LISTEN".
  destruct (environ !! "GGB_LISTEN") eqn:H1; cbn [and_then];
    [|missing_variable 1%nat].
  unfold getEnv at 1. change ("GGB_" +:+ "SMTP_HOST") with "GGB_SMTP_HOST".
  destruct (environ !! "GGB_SMTP_HOST") eqn:H2; cbn [and_then];
    [|missing_variable 2%nat].
  unfold getEnv at 1. change ("GGB_" +:+ "SMTP_PORT") with "GGB_SMTP_PORT".
  destruct (environ !! "GGB_SMTP_PORT") eqn:H3; cbn [and_then];
    [|missing_variable 3%nat].
  unfold getEnv at 1. change ("GGB_" +:+ "SMTP_USER") with "GGB_SMTP_USER".
  destruct (environ !! "GGB_SMTP_USER") eqn:H4; cbn [and_then];
    [|missing_variable 4%nat].
  unfold getEnv at 1. change ("GGB_" +:+ "SMTP_PASS") with "GGB_SMTP_PASS".
  destruct (environ !! "GGB_SMTP_PASS") eqn:H5; cbn [and_then];
    [|missing_variable 5%nat].
  unfold getEnv at 1. change ("GGB_" +:+ "ADMIN_EMAIL") with "GGB_ADMIN_EMAIL".
  destruct (environ !! "GGB_ADMIN_EMAIL") eqn:H6; cbn [and_then];
    [|missing_variable 6%nat].
  unfold getEnv at 1. change ("GGB_" +:+ "ANTI_SPAM_CODE") with "GGB_ANTI_SPAM_CODE".
  destruct (environ !! "GGB_ANTI_SPAM_CODE") eqn:H7; cbn [and_then];
    [|missing_variable 7%nat].
  unfold getEnv at 1. change ("GGB_" +:+ "URL") with "GGB_URL".
  destruct (environ !! "GGB_URL") eqn:H8; cbn [and_then];
    [|missing_variable 8%nat].
  unfold getEnv at 1. change ("GGB_" +:+ "ENTRY_WAIT_SECONDS") with "GGB_ENTRY_WAIT_SECONDS".
  destruct (environ !! "GGB_ENTRY_WAIT_SECONDS") as [seconds|] eqn:H9; cbn [and_then];
    [|missing_variable 9%nat].
  destruct (time_ParseDuration (seconds +:+ "s")) as [duration|err] eqn:Hparse.
  - cbn. repeat split; try done. by exists seconds.
  - right. split; [repeat constructor; by eexists|]. by exists seconds, err.
Qed.

(** ** Who is written to *)

Lemma createEntry_events (lib : Lib) (config : Configuration) (env : Env)
    (r : Request) (t : Table) :
  events_of (serve (createEntry lib config env r) t) = []
  ∨ ∃ id,
      status (response_of (serve (createEntry lib config env r) t)) = StatusCreated
      ∧ events_of (serve (createEntry lib config env r) t)
        = log_Printf ("New entry: " +:+ URL config +:+ "?GgbEntryID=" +:+ id) ::
          notify config env (AdminEmail config) mailAdminEntryAddedSubject
            (mailAdminEntryAddedBody (URL config +:+ "?GgbEntryID=" +:+ id))
            "Failed to send email to admin: ".
Proof.
  rewrite createEntry_run. unfold createEntry_outcome.
  destruct (json_Decode_Entry lib (Body r)) as [entry|]; [|by left].
  destruct (decide (Code entry ≠ AntiSpamCode config)); [by left|].
  destruct (validateEntry entry); [by left|].
  destruct (originating_address lib r) as [ip|]; [|by left].
  destruct (rate_limited config env ip t); [by left|].
  destruct (generateID lib env) as [id|]; [|by left].
  destruct (t !! id); [by left|]. right. by exists id.
Qed.

(** Every mail the program sends goes through the configured server, from
    the configured user, to one recipient: the administrator when it is a
    submission that was stored, the stored address of the entry named in
    the request when it is an Approve or a Comment.  The routes that read
    and the Reject send nothing, and no mail goes to an address taken from
    the request. *)
Theorem mails_go_to_admin_or_author (lib : Lib) (config : Configuration) (env : Env)
    (route : Route) (r : Request) (t : Table) (addr from msg : string) (to : list string) :
  smtp_SendMail addr from to msg ∈ events_of (serve (router lib config env route r) t) ->
  addr = SMTPHost config +:+ ":" +:+ SMTPPort config
  ∧ from = SMTPUser config
  ∧ ((route = POST_entries ∧ to = [AdminEmail config]
      ∧ status (response_of (serve (router lib config env route r) t)) = StatusCreated)
     ∨ ((route = POST_approve ∨ route = PUT_comment)
        ∧ ∃ row, t !! id_of r = Some row ∧ to = [col_email row] ∧ col_email row ≠ "")).
Proof.
  assert (Hnotify : ∀ rcpt subject text failure,
            smtp_SendMail addr from to msg ∈ notify config env rcpt subject text failure ->
            addr = SMTPHost config +:+ ":" +:+ SMTPPort config
            ∧ from = SMTPUser config ∧ to = [rcpt]).
  { intros rcpt subject text failure. unfold notify, mail.
    intros [[= -> -> -> _]|Hin]%elem_of_cons; [done|].
    destruct (answer env _); [|by apply elem_of_nil in Hin].
    apply elem_of_cons in Hin as [[=]|Hin]. by apply elem_of_nil in Hin. }
  destruct route; cbn [router].
  - rewrite getApprovedEntries_run. by intros ?%elem_of_nil.
  - destruct (createEntry_events lib config env r t) as [Hnone|(id & Hstatus & Hsome)].
    + rewrite Hnone. by intros ?%elem_of_nil.
    + rewrite Hsome. intros [[=]|Hin]%elem_of_cons.
      apply Hnotify in Hin as (-> & -> & ->). split; [done|]. split; [done|]. by left.
  - rewrite getEntry_run. destruct (t !! id_of r); by intros ?%elem_of_nil.
  - rewrite approveEntry_run. destruct (t !! id_of r) as [row|];
      [|by intros ?%elem_of_nil]. cbn [events_of snd].
    case_decide as Hd; [|by intros ?%elem_of_nil].
    intros (-> & -> & ->)%Hnotify. split; [done|]. split; [done|].
    right. split; [by left|]. exists row. by destruct Hd.
  - rewrite rejectEntry_run. destruct (t !! id_of r); by intros ?%elem_of_nil.
  - rewrite addComment_run. destruct (t !! id_of r) as [row|];
      [|by intros ?%elem_of_nil].
    destruct (json_Decode_comment lib (Body r)); [|by intros ?%elem_of_nil].
    cbn [events_of snd].
    case_decide as Hd; [|by intros ?%elem_of_nil].
    intros (-> & -> & ->)%Hnotify. split; [done|]. split; [done|].
    right. split; [by right|]. exists row. by destruct Hd.
Qed.

Lemma mails_go_to_admin_or_author_witness :
  ∃ row, ({["6162" := alice_row]} : Table) !! id_of (request_for "6162" "") = Some row
         ∧ ["alice@example.com"] = [col_email row].
Proof.
  destruct (mails_go_to_admin_or_author (example_lib alice) example_config (example_env 2000)
              POST_approve (request_for "6162" "") {["6162" := alice_row]}
              "smtp.example.org:587" "mailer"
              (String.concat CRLF
                 ["To: alice@example.com"; "From: admin@example.org";
                  "Subject: =?utf-8?q?" +:+ mailEntryApprovedSubject +:+ "?=";
                  "Content-Type: text/plain; charset=" +:+ DQUOTE +:+ "UTF-8" +:+ DQUOTE;
                  ""; mailEntryApprovedBody "https://example.org/guestbook"])
              ["alice@example.com"])
    as (_ & _ & [(Hroute & _)|(_ & row & Hrow & Hto & _)]).
  - vm_compute. left.
  - discriminate Hroute.
  - exists row. split; [exact Hrow|exact Hto].
Defined.

(** ** The address a submission is filed under *)

Definition with_RemoteAddr (r : Request) (addr : string) : Request :=
  mkRequest (Header r) addr (mux_Vars r) (Body r).

(** When a request carries a forwarded-for value that is not empty, the
    peer address plays no part: [net.SplitHostPort] is not consulted, a
    peer address it would refuse does no harm, and the outcome is the same
    for every peer address.  What is stored and compared by the rate limit
    is the whole value of the header as the client sent it. *)
Theorem forwarded_for_overrides_peer (lib : Lib) (config : Configuration) (env : Env)
    (r : Request) (t : Table) (addr : string) :
  Header_Get (Header r) "X-Forwarded-For" ≠ "" ->
  originating_address lib r = inl (Header_Get (Header r) "X-Forwarded-For")
  ∧ serve (createEntry lib config env (with_RemoteAddr r addr)) t
    = serve (createEntry lib config env r) t.
Proof.
  intros Hx.
  assert (Haddr : ∀ r', Header r' = Header r ->
            originating_address lib r' = inl (Header_Get (Header r) "X-Forwarded-For")).
  { intros r' Hr'. unfold originating_address. rewrite Hr'. by rewrite decide_False. }
  split; [by apply Haddr|].
  rewrite !createEntry_run. unfold createEntry_outcome.
  rewrite (Haddr r eq_refl), (Haddr (with_RemoteAddr r addr) eq_refl). reflexivity.
Qed.

Definition forwarded_request : Request :=
  mkRequest {["X-Forwarded-For" := ["198.51.100.4"]]} "not an address" ∅ "".

Lemma forwarded_for_overrides_peer_witness :
  table_of (serve (createEntry (example_lib alice) example_config (example_env 5000)
                     forwarded_request) ∅)
  = {["6162" := mkRow "Alice Smith" "alice@example.com" "Hello there, this is my message."
                      "198.51.100.4" 0 "" 5000]}.
Proof.
  destruct (forwarded_for_overrides_peer (example_lib alice) example_config
              (example_env 5000) forwarded_request ∅ "192.0.2.7:51234") as [_ Hsame].
  - vm_compute. discriminate.
  - rewrite <- Hsame. vm_compute. reflexivity.
Defined.

(** ** The empty listing *)

(** When no row is approved the body of the listing is the JSON [null],
    not an empty array: the slice that [db.Select] fills stays nil.  With
    an approved row it is an array with one object per approved row. *)
Theorem empty_listing_is_null (r : Request) (t : Table) :
  (body (response_of (serve (getApprovedEntries r) t)) = [Json JNull]
   ↔ ∀ id row, t !! id = Some row -> col_approved row ≠ 1)
  ∧ (body (response_of (serve (getApprovedEntries r) t)) = [Json JNull]
     ∨ ∃ elems, body (response_of (serve (getApprovedEntries r) t)) = [Json (JArray elems)]
         ∧ elems ≠ []
         ∧ length elems = length (filter (fun kv => col_approved kv.2 = 1) (map_to_list t))).
Proof.
  rewrite getApprovedEntries_run. cbn [response_of body fst].
  pose proof (elem_of_SELECT_approved t) as Helem.
  pose proof (SELECT_approved_Permutation t) as Hperm.
  destruct (SELECT_approved t) as [|e rest] eqn:Hlisting; cbn [Entries_json].
  - split; [|by left]. split; [|done].
    intros _ id row Hrow Happroved.
    assert (Hin : scan_listing (id, row) ∈ @nil Entry) by (apply Helem; eauto).
    by apply elem_of_nil in Hin.
  - split.
    + split; [discriminate|]. intros Hnone. exfalso.
      assert (Hin : e ∈ e :: rest) by by left.
      apply Helem in Hin as (id & row & Hrow & Happroved & _).
      by apply (Hnone id row).
    + right. eexists. split; [reflexivity|]. split; [discriminate|].
      rewrite length_fmap. apply Permutation_length in Hperm.
      by rewrite length_fmap in Hperm.
Qed.

(** ** An id that is taken *)

(** When [generateID] returns an id that a row already has, the INSERT
    fails on the primary key: the submission is answered 500, the row that
    holds the id is not overwritten, nothing is stored and no mail is
    sent. *)
Theorem createEntry_id_collision (lib : Lib) (config : Configuration) (env : Env)
    (r : Request) (t : Table) (id : string) (row : Row) :
  generateID lib env = inl id ->
  t !! id = Some row ->
  status (response_of (serve (createEntry lib config env r) t)) ≠ StatusCreated
  ∧ table_of (serve (createEntry lib config env r) t) = t
  ∧ events_of (serve (createEntry lib config env r) t) = []
  ∧ (∀ entry ip,
       json_Decode_Entry lib (Body r) = inl entry ->
       Code entry = AntiSpamCode config ->
       ¬ invalid_fields entry ->
       originating_address lib r = inl ip ->
       rate_limited config env ip t = false ->
       status (response_of (serve (createEntry lib config env r) t))
       = StatusInternalServerError).
Proof.
  intros Hid Hrow.
  rewrite createEntry_run. unfold createEntry_outcome.
  split; [|split; [|split]].
  - destruct (json_Decode_Entry lib (Body r)) as [entry|]; [|discriminate].
    destruct (decide (Code entry ≠ AntiSpamCode config)); [discriminate|].
    destruct (validateEntry entry); [discriminate|].
    destruct (originating_address lib r) as [ip|]; [|discriminate].
    destruct (rate_limited config env ip t); [discriminate|].
    rewrite Hid, Hrow. discriminate.
  - destruct (json_Decode_Entry lib (Body r)) as [entry|]; [|done].
    destruct (decide (Code entry ≠ AntiSpamCode config)); [done|].
    destruct (validateEntry entry); [done|].
    destruct (originating_address lib r) as [ip|]; [|done].
    destruct (rate_limited config env ip t); [done|].
    by rewrite Hid, Hrow.
  - destruct (json_Decode_Entry lib (Body r)) as [entry|]; [|done].
    destruct (decide (Code entry ≠ AntiSpamCode config)); [done|].
    destruct (validateEntry entry); [done|].
    destruct (originating_address lib r) as [ip|]; [|done].
    destruct (rate_limited config env ip t); [done|].
    by rewrite Hid, Hrow.
  - intros entry ip Hentry Hcode Hvalid Hip Hlimit.
    rewrite Hentry. rewrite decide_False by (intros Hne; by apply Hne).
    apply validateEntry_None in Hvalid as ->.
    by rewrite Hip, Hlimit, Hid, Hrow.
Qed.

Lemma createEntry_id_collision_witness :
  table_of (serve (createEntry (example_lib eve) example_config
                     (example_env (100 * 1000000000)) forwarded_request)
                  {["6162" := alice_row]})
  = {["6162" := alice_row]}.
Proof.
  destruct (createEntry_id_collision (example_lib eve) example_config
              (example_env (100 * 1000000000)) forwarded_request
              {["6162" := alice_row]} "6162" alice_row) as (_ & Htable & _).
  - reflexivity.
  - vm_compute. reflexivity.
  - exact Htable.
Defined.

Example createEntry_id_collision_status :
  status (response_of (serve (createEntry (example_lib eve) example_config
                                (example_env (100 * 1000000000)) forwarded_request)
                             {["6162" := alice_row]})) = 500.
Proof. vm_compute. reflexivity. Qed.

Lemma addComment_after_text_is_silent_witness :
  notifications
    (events_of
       (serve (addComment (example_lib alice) example_config (example_env 3000)
                 (request_for "6162" ""))
          (table_of
             (serve (addComment (example_lib alice) example_config (example_env 2000)
                       (request_for "6162" "Thanks!"))
                    {["6162" := alice_row]})))) = 0%nat.
Proof.
  apply (addComment_after_text_is_silent (example_lib alice) example_config
           (example_env 2000) (example_env 3000)
           (request_for "6162" "Thanks!") (request_for "6162" "")
           {["6162" := alice_row]} alice_row "Thanks!" "").
  - vm_compute. reflexivity.
  - reflexivity.
  - reflexivity.
  - reflexivity.
  - discriminate.
Defined.
